(** * Langterm: natural language to shell command

    A shallow embedding of [src/index.js] (class [Langterm]) and the
    properties of its command extraction, its preference store and its
    confirm-then-execute session.

    JavaScript strings are sequences of UTF-16 code units; they are modelled
    as lists of code units, each an [N]. *)

From Stdlib Require Import List NArith ZArith Bool Lia String Ascii DecimalString.
Import ListNotations.

Set Implicit Arguments.

(** ** JavaScript strings *)

Module JS.

Definition jsstring := list N.

(** A literal of the source, written in ASCII. *)
Definition js (s : string) : jsstring :=
  List.map N_of_ascii (list_ascii_of_string s).

Definition eqb (a b : jsstring) : bool :=
  if list_eq_dec N.eq_dec a b then true else false.

(** The backtick, U+0060. *)
Definition tick : N := 96%N.

Definition isTick (c : N) : bool := N.eqb c tick.

(** [s.includes(c)] for a one-unit search string. *)
Definition includes (c : N) (s : jsstring) : bool :=
  existsb (N.eqb c) s.

(** WhiteSpace and LineTerminator of ECMAScript, the units that
    [String.prototype.trim] strips and that [parseInt] skips. *)
Definition isWhiteSpace (c : N) : bool :=
  (N.eqb c 9 || N.eqb c 10 || N.eqb c 11 || N.eqb c 12 || N.eqb c 13
   || N.eqb c 32 || N.eqb c 160 || N.eqb c 5760
   || (N.leb 8192 c && N.leb c 8202)
   || N.eqb c 8232 || N.eqb c 8233 || N.eqb c 8239 || N.eqb c 8287
   || N.eqb c 12288 || N.eqb c 65279)%N%bool.

Fixpoint trimStart (s : jsstring) : jsstring :=
  match s with
  | [] => []
  | c :: r => if isWhiteSpace c then trimStart r else s
  end.

Definition trimEnd (s : jsstring) : jsstring := rev (trimStart (rev s)).

Definition trim (s : jsstring) : jsstring := trimEnd (trimStart s).

(** Truthiness of a string value: every string but the empty one. *)
Definition truthy (s : jsstring) : bool :=
  match s with [] => false | _ :: _ => true end.

(** [parts.join(sep)]. *)
Fixpoint join (sep : jsstring) (parts : list jsstring) : jsstring :=
  match parts with
  | [] => []
  | [p] => p
  | p :: rest => p ++ sep ++ join sep rest
  end.

(** [parseInt(s)] with no radix: white space skipped, a sign, the prefix 0x
    or 0X choosing radix 16, then the longest run of digits; [None] stands for
    NaN.  The value is kept exact: the program only compares it with a list
    length. *)
Definition digitVal (radix c : N) : option N :=
  let v := if (N.leb 48 c && N.leb c 57)%bool then Some (c - 48)%N
           else if (N.leb 97 c && N.leb c 122)%bool then Some (c - 87)%N
           else if (N.leb 65 c && N.leb c 90)%bool then Some (c - 55)%N
           else None in
  match v with
  | Some d => if N.ltb d radix then Some d else None
  | None => None
  end.

Fixpoint digitsValue (radix : N) (s : jsstring) (acc : option N) : option N :=
  match s with
  | [] => acc
  | c :: r =>
      match digitVal radix c with
      | Some d =>
          digitsValue radix r
            (Some (radix * match acc with Some a => a | None => 0 end + d)%N)
      | None => acc
      end
  end.

Definition parseInt (s : jsstring) : option Z :=
  let s1 := trimStart s in
  let (neg, s2) :=
    match s1 with
    | c :: r => if N.eqb c 45 then (true, r)
                else if N.eqb c 43 then (false, r) else (false, s1)
    | [] => (false, s1)
    end in
  let (radix, s3) :=
    match s2 with
    | a :: b :: r =>
        if (N.eqb a 48 && (N.eqb b 120 || N.eqb b 88))%bool
        then (16%N, r) else (10%N, s2)
    | _ => (10%N, s2)
    end in
  match digitsValue radix s3 None with
  | Some v => Some (if neg then (- Z.of_N v)%Z else Z.of_N v)
  | None => None
  end.

(** [String(n)] for a natural number. *)
Definition decimal (n : N) : jsstring :=
  js (DecimalString.NilZero.string_of_uint (N.to_uint n)).

End JS.

Import JS.

(** ** Command extraction: the clean-up in [generateCommand], lines 168-177 *)

Module Extract.

(** The tail of the pattern (a run of units other than the backtick, then a
    backtick) tried at one position: the units up to the next backtick are
    the capture.  The star is greedy, and giving units
    back cannot help, since the unit after a shorter run is not a backtick. *)
Fixpoint untilTick (s : jsstring) : option (jsstring * jsstring) :=
  match s with
  | [] => None
  | c :: r =>
      if isTick c then Some ([], r)
      else match untilTick r with
           | Some (cap, rest) => Some (c :: cap, rest)
           | None => None
           end
  end.

(** The whole pattern (backtick, captured run, backtick) tried at the head
    of [s]. *)
Definition matchHere (s : jsstring) : option (jsstring * jsstring) :=
  match s with
  | [] => None
  | c :: r => if isTick c then untilTick r else None
  end.

(** [s.match(re)?.[1]] for that pattern: the first capture of the leftmost match,
    the start index moving right after each failure; [None] stands for
    [undefined], the value when nothing matches. *)
Fixpoint matchSpan (s : jsstring) : option jsstring :=
  match matchHere s with
  | Some (cap, _) => Some cap
  | None =>
      match s with
      | [] => None
      | _ :: r => matchSpan r
      end
  end.

(** [s.replace(/```/g, '')]: every fence marker removed, scanning from the
    left, the matches not overlapping. *)
Fixpoint removeFences (s : jsstring) : jsstring :=
  match s with
  | [] => []
  | a :: t =>
      match t with
      | b :: c :: r =>
          if (isTick a && isTick b && isTick c)%bool then removeFences r
          else a :: removeFences t
      | _ => s
      end
  end.

(** Lines 171-175: [x || command] takes [command] when [x] is [undefined]
    or the empty string. *)
Definition extractCommand (response : jsstring) : jsstring :=
  if includes tick response then
    match matchSpan response with
    | Some cap => if truthy cap then cap else response
    | None => response
    end
  else trim (removeFences response).

End Extract.

Import Extract.

(** ** JSON text: [JSON.stringify] and [JSON.parse]

    The preference file holds JSON text.  A number keeps the lexeme it was
    written with; all this program asks of a number is whether it is
    zero. *)

Module Json.

Local Open Scope N_scope.
#[local] Set Warnings "-register-all".

Inductive json : Type :=
| JNull
| JBool (b : bool)
| JNum (lexeme : jsstring)
| JStr (s : jsstring)
| JArr (items : list json)
| JObj (fields : list (jsstring * json)).

(** An object keeps its properties in insertion order; defining a property
    that exists replaces its value in place. *)
Fixpoint setField (k : jsstring) (v : json) (fs : list (jsstring * json))
  : list (jsstring * json) :=
  match fs with
  | [] => [(k, v)]
  | (k', v') :: r =>
      if JS.eqb k k' then (k, v) :: r else (k', v') :: setField k v r
  end.

(** [o.k] on an object: [None] stands for [undefined]. *)
Fixpoint getField (k : jsstring) (fs : list (jsstring * json)) : option json :=
  match fs with
  | [] => None
  | (k', v) :: r => if JS.eqb k k' then Some v else getField k r
  end.

Definition isDigit (c : N) : bool := (N.leb 48 c && N.leb c 57)%bool.

(** The value of a number lexeme is [m] times 10 to the power [e]:
    [mantissa] reads the digits before the exponent mark into [m], counting
    those after the point, and gives the text after the mark. *)
Fixpoint mantissa (l : jsstring) (m : N) (inFraction : bool) (places : Z)
  : N * Z * jsstring :=
  match l with
  | [] => (m, places, [])
  | c :: r =>
      if (N.eqb c 101 || N.eqb c 69)%bool then (m, places, r)
      else if N.eqb c 46 then mantissa r m true places
      else if isDigit c
           then mantissa r (10 * m + (c - 48)) inFraction
                  (if inFraction then (places + 1)%Z else places)
      else mantissa r m inFraction places
  end.

Fixpoint exponentDigits (l : jsstring) (acc : Z) : Z :=
  match l with
  | [] => acc
  | c :: r =>
      if isDigit c then exponentDigits r (10 * acc + Z.of_N (c - 48))%Z
      else acc
  end.

Definition exponent (l : jsstring) : Z :=
  match l with
  | [] => 0%Z
  | c :: r =>
      if N.eqb c 45 then (- exponentDigits r 0)%Z
      else if N.eqb c 43 then exponentDigits r 0%Z
      else exponentDigits l 0%Z
  end.

(** The Number a lexeme is read as is zero when the mantissa is zero, and
    when the value is so small that the nearest double is zero: at most
    2 to the power -1075, half the smallest double above zero. *)
Definition denotesZero (l : jsstring) : bool :=
  let '(m, places, rest) := mantissa l 0 false 0%Z in
  let e := (exponent rest - places)%Z in
  (N.eqb m 0
   || ((e <? 0)%Z && (Z.of_N m * 2 ^ 1075 <=? 10 ^ (- e))%Z))%bool.

(** ToBoolean: [null], [false], zero and the empty string are falsy. *)
Definition truthy (v : json) : bool :=
  match v with
  | JNull => false
  | JBool b => b
  | JNum l => negb (denotesZero l)
  | JStr s => JS.truthy s
  | JArr _ | JObj _ => true
  end.

(** *** Serialisation *)

Definition hexDigit (n : N) : N :=
  if N.ltb n 10 then 48 + n else 87 + n.

(** The six-unit escape of a code unit, hexadecimal digits in lower case. *)
Definition unicodeEscape (c : N) : jsstring :=
  [92; 117; hexDigit (N.modulo (N.div c 4096) 16);
   hexDigit (N.modulo (N.div c 256) 16);
   hexDigit (N.modulo (N.div c 16) 16); hexDigit (N.modulo c 16)].

Definition isHighSurrogate (c : N) : bool := (N.leb 55296 c && N.leb c 56319)%bool.
Definition isLowSurrogate (c : N) : bool := (N.leb 56320 c && N.leb c 57343)%bool.

(** One code unit that is not the first half of a surrogate pair. *)
Definition escapeUnit (c : N) : jsstring :=
  if N.eqb c 8 then [92; 98]
  else if N.eqb c 9 then [92; 116]
  else if N.eqb c 10 then [92; 110]
  else if N.eqb c 12 then [92; 102]
  else if N.eqb c 13 then [92; 114]
  else if N.eqb c 34 then [92; 34]
  else if N.eqb c 92 then [92; 92]
  else if (N.ltb c 32 || isHighSurrogate c || isLowSurrogate c)%bool
       then unicodeEscape c
  else [c].

(** The body of QuoteJSONString: the string is read by code points, a
    surrogate pair is copied and a lone surrogate is escaped. *)
Fixpoint quoteUnits (s : jsstring) : jsstring :=
  match s with
  | [] => []
  | c :: r =>
      match r with
      | d :: r' =>
          if (isHighSurrogate c && isLowSurrogate d)%bool
          then c :: d :: quoteUnits r'
          else escapeUnit c ++ quoteUnits r
      | [] => escapeUnit c
      end
  end.

Definition quote (s : jsstring) : jsstring := [34] ++ quoteUnits s ++ [34].

Definition newline : jsstring := [10].

(** SerializeJSONProperty with a gap: [indent] is the current indentation,
    members are one per line, an empty array or object stays closed. *)
Fixpoint serialize (gap indent : jsstring) (v : json) : jsstring :=
  match v with
  | JNull => js "null"
  | JBool true => js "true"
  | JBool false => js "false"
  | JNum l => l
  | JStr s => quote s
  | JArr items =>
      match items with
      | [] => js "[]"
      | _ =>
          let inner := indent ++ gap in
          js "[" ++ newline ++ inner
             ++ join (js "," ++ newline ++ inner)
                     (List.map (serialize gap inner) items)
             ++ newline ++ indent ++ js "]"
      end
  | JObj fields =>
      match fields with
      | [] => js "{}"
      | _ =>
          let inner := indent ++ gap in
          js "{" ++ newline ++ inner
             ++ join (js "," ++ newline ++ inner)
                     (List.map (fun kv => let '(k, x) := kv in
                                  quote k ++ js ": " ++ serialize gap inner x)
                               fields)
             ++ newline ++ indent ++ js "}"
      end
  end.

(** [JSON.stringify(v, null, 2)]. *)
Definition stringify2 (v : json) : jsstring := serialize (js "  ") [] v.

(** *** Parsing *)

Definition isWs (c : N) : bool :=
  (N.eqb c 32 || N.eqb c 9 || N.eqb c 10 || N.eqb c 13)%bool.

Fixpoint skipWs (s : jsstring) : jsstring :=
  match s with
  | [] => []
  | c :: r => if isWs c then skipWs r else s
  end.

Definition hexVal (c : N) : option N :=
  if isDigit c then Some (c - 48)
  else if (N.leb 97 c && N.leb c 102)%bool then Some (c - 87)
  else if (N.leb 65 c && N.leb c 70)%bool then Some (c - 55)
  else None.

Definition hex4 (a b c d : N) : option N :=
  match hexVal a, hexVal b, hexVal c, hexVal d with
  | Some x, Some y, Some z, Some t => Some (((x * 16 + y) * 16 + z) * 16 + t)
  | _, _, _, _ => None
  end.

(** The unit a two-unit escape stands for. *)
Definition simpleEscape (e : N) : option N :=
  if N.eqb e 34 then Some 34
  else if N.eqb e 92 then Some 92
  else if N.eqb e 47 then Some 47
  else if N.eqb e 98 then Some 8
  else if N.eqb e 102 then Some 12
  else if N.eqb e 110 then Some 10
  else if N.eqb e 114 then Some 13
  else if N.eqb e 116 then Some 9
  else None.

Definition consUnit (u : N) (o : option (jsstring * jsstring))
  : option (jsstring * jsstring) :=
  match o with
  | Some (t, rest) => Some (u :: t, rest)
  | None => None
  end.

(** A string after its opening quote: the value and the text after the
    closing quote. *)
Fixpoint parseChars (s : jsstring) : option (jsstring * jsstring) :=
  match s with
  | [] => None
  | c :: r =>
      if N.eqb c 34 then Some ([], r)
      else if N.eqb c 92 then
        match r with
        | [] => None
        | e :: r1 =>
            if N.eqb e 117 then
              match r1 with
              | h1 :: h2 :: h3 :: h4 :: r2 =>
                  match hex4 h1 h2 h3 h4 with
                  | Some u => consUnit u (parseChars r2)
                  | None => None
                  end
              | _ => None
              end
            else
              match simpleEscape e with
              | Some u => consUnit u (parseChars r1)
              | None => None
              end
        end
      else if N.ltb c 32 then None
      else consUnit c (parseChars r)
  end.

Fixpoint digits (s : jsstring) : jsstring * jsstring :=
  match s with
  | [] => ([], [])
  | c :: r =>
      if isDigit c then let (ds, rest) := digits r in (c :: ds, rest)
      else ([], s)
  end.

Definition lexInt (s : jsstring) : option (jsstring * jsstring) :=
  match s with
  | [] => None
  | c :: r =>
      if N.eqb c 48 then Some ([c], r)
      else if isDigit c then let (ds, rest) := digits r in Some (c :: ds, rest)
      else None
  end.

Definition lexFrac (s : jsstring) : option (jsstring * jsstring) :=
  match s with
  | [] => Some ([], s)
  | c :: r =>
      if N.eqb c 46 then
        match digits r with
        | ([], _) => None
        | (ds, rest) => Some (c :: ds, rest)
        end
      else Some ([], s)
  end.

Definition lexSign (s : jsstring) : jsstring * jsstring :=
  match s with
  | [] => ([], s)
  | c :: r => if (N.eqb c 43 || N.eqb c 45)%bool then ([c], r) else ([], s)
  end.

Definition lexExp (s : jsstring) : option (jsstring * jsstring) :=
  match s with
  | [] => Some ([], s)
  | c :: r =>
      if (N.eqb c 101 || N.eqb c 69)%bool then
        let (sg, r1) := lexSign r in
        match digits r1 with
        | ([], _) => None
        | (ds, rest) => Some (c :: sg ++ ds, rest)
        end
      else Some ([], s)
  end.

(** A JSON number: minus, integer part, fraction, exponent. *)
Definition lexNumber (s : jsstring) : option (jsstring * jsstring) :=
  let (minus, s1) :=
    match s with
    | [] => ([], s)
    | c :: r => if N.eqb c 45 then ([c], r) else ([], s)
    end in
  match lexInt s1 with
  | None => None
  | Some (i, s2) =>
      match lexFrac s2 with
      | None => None
      | Some (f, s3) =>
          match lexExp s3 with
          | None => None
          | Some (e, s4) => Some (minus ++ i ++ f ++ e, s4)
          end
      end
  end.

Fixpoint stripPrefix (p s : jsstring) : option jsstring :=
  match p with
  | [] => Some s
  | a :: p' =>
      match s with
      | [] => None
      | b :: s' => if N.eqb a b then stripPrefix p' s' else None
      end
  end.

Definition keyword (p : jsstring) (v : json) (s : jsstring)
  : option (json * jsstring) :=
  match stripPrefix p s with
  | Some rest => Some (v, rest)
  | None => None
  end.

(** A value, the items of an array after its first bracket and the members
    of an object after its first brace.  [fuel] bounds the calls; an input
    of n units needs no more than n + 1. *)
Fixpoint parseValue (fuel : nat) (s : jsstring) {struct fuel}
  : option (json * jsstring) :=
  match fuel with
  | O => None
  | S n =>
      match skipWs s with
      | [] => None
      | c :: r =>
          if N.eqb c 123 then
            match skipWs r with
            | [] => None
            | c2 :: r2 =>
                if N.eqb c2 125 then Some (JObj [], r2)
                else parseMembers n (c2 :: r2) []
            end
          else if N.eqb c 91 then
            match skipWs r with
            | [] => None
            | c2 :: r2 =>
                if N.eqb c2 93 then Some (JArr [], r2)
                else parseItems n (c2 :: r2) []
            end
          else if N.eqb c 34 then
            match parseChars r with
            | Some (t, rest) => Some (JStr t, rest)
            | None => None
            end
          else if N.eqb c 116 then keyword (js "true") (JBool true) (c :: r)
          else if N.eqb c 102 then keyword (js "false") (JBool false) (c :: r)
          else if N.eqb c 110 then keyword (js "null") JNull (c :: r)
          else
            match lexNumber (c :: r) with
            | Some (l, rest) => Some (JNum l, rest)
            | None => None
            end
      end
  end

with parseItems (fuel : nat) (s : jsstring) (acc : list json) {struct fuel}
  : option (json * jsstring) :=
  match fuel with
  | O => None
  | S n =>
      match parseValue n s with
      | None => None
      | Some (v, r) =>
          match skipWs r with
          | [] => None
          | c :: r1 =>
              if N.eqb c 44 then parseItems n r1 (acc ++ [v])
              else if N.eqb c 93 then Some (JArr (acc ++ [v]), r1)
              else None
          end
      end
  end

with parseMembers (fuel : nat) (s : jsstring) (acc : list (jsstring * json))
  {struct fuel} : option (json * jsstring) :=
  match fuel with
  | O => None
  | S n =>
      match skipWs s with
      | [] => None
      | c :: r =>
          if N.eqb c 34 then
            match parseChars r with
            | None => None
            | Some (k, r1) =>
                match skipWs r1 with
                | [] => None
                | c1 :: r2 =>
                    if N.eqb c1 58 then
                      match parseValue n r2 with
                      | None => None
                      | Some (v, r3) =>
                          match skipWs r3 with
                          | [] => None
                          | c3 :: r4 =>
                              if N.eqb c3 44
                              then parseMembers n r4 (setField k v acc)
                              else if N.eqb c3 125
                              then Some (JObj (setField k v acc), r4)
                              else None
                          end
                      end
                    else None
                end
            end
          else None
      end
  end.

(** [JSON.parse(text)]: one value, white space around it and nothing else;
    [None] when the call throws. *)
Definition parse (text : jsstring) : option json :=
  match parseValue (S (List.length text)) text with
  | Some (v, rest) =>
      match skipWs rest with
      | [] => Some v
      | _ :: _ => None
      end
  | None => None
  end.

End Json.

(** ** The session: class [Langterm] *)

Module Cli.

Import Json.

Inductive Platform : Type := Win32 | Darwin | OtherPlatform.

Record ModelDescriptor : Type := { name : jsstring }.

(** What one GET /api/tags brings back: the request fails, or a response
    with its [ok] flag and the [models] field of its body ([None] when the
    body is not JSON or carries no models). *)
Inductive TagsReply : Type :=
| TagsUnreachable
| TagsAnswer (ok : bool) (models : option (list ModelDescriptor)).

(** What POST /api/generate brings back: the request or the reading of its
    body fails with a message, the status is not a success, or the body
    carries the [response] string. *)
Inductive GenReply : Type :=
| GenRejected (message : jsstring)
| GenStatus (statusText : jsstring)
| GenAnswer (response : jsstring).

(** How the spawned shell ends: an exit code, a signal (the code is then
    [null]) or a spawn error.  A child that never ends, like a request that
    is never answered, keeps the process waiting and is outside this model:
    what is said of an outcome is said of children that have one. *)
Inductive ChildOutcome : Type :=
| ChildExit (code : N)
| ChildKilled
| ChildError (message : jsstring).

(** Everything outside the program that one invocation meets. *)
Record World : Type := {
  argv : list jsstring;
  envDEBUG : option jsstring;
  platform : Platform;
  configFile : option jsstring;
  diskError : option jsstring;
  tags : nat -> TagsReply;
  generation : option json -> jsstring -> GenReply;
  operator : list jsstring;
  child : jsstring -> ChildOutcome
}.

(** A line on the console.  [Fixed n] is the [console.log] call at line [n]
    of the source, whose text is the same in every run. *)
Inductive message : Type :=
| RawArgs (args : list jsstring)
| Fixed (line : nat)
| ModelEntry (number : nat) (model : jsstring)
| SetupComplete (model : jsstring)
| Suggested (command : jsstring)
| Running (command : jsstring)
| ErrorLine (text : jsstring).

Inductive question : Type := SelectNumber | EnterCommand | Confirm.

Inductive event : Type :=
| Log (m : message)
| Question (q : question)
| ReadFile
| WriteFile (text : jsstring)
| FetchTags
| FetchGenerate (model : option json) (prompt : jsstring)
| Spawn (command : jsstring).

(** The mutable part: [this.config], the preference file, the number of
    requests made to /api/tags and the operator's lines not read yet. *)
Record State : Type := {
  config : json;
  file : option jsstring;
  probes : nat;
  stdin : list jsstring
}.

Definition withConfig (c : json) (s : State) : State :=
  {| config := c; file := file s; probes := probes s; stdin := stdin s |}.
Definition withFile (f : option jsstring) (s : State) : State :=
  {| config := config s; file := f; probes := probes s; stdin := stdin s |}.
Definition withStdin (l : list jsstring) (s : State) : State :=
  {| config := config s; file := file s; probes := probes s; stdin := l |}.
Definition probed (s : State) : State :=
  {| config := config s; file := file s; probes := S (probes s);
     stdin := stdin s |}.

(** How a computation ends: with a value, with a thrown error, in
    [process.exit], or waiting at a question for a line that never comes. *)
Inductive Res (A : Type) : Type :=
| Done (a : A) (s : State)
| Throw (message : jsstring) (s : State)
| Exit (code : Z) (s : State)
| Wait (s : State).

Arguments Throw {A}.
Arguments Exit {A}.
Arguments Wait {A}.

(** A computation writes events and ends in a [Res]. *)
Definition M (A : Type) : Type := State -> list event * Res A.

Definition ret {A} (a : A) : M A := fun s => ([], Done a s).

Definition bind {A B} (m : M A) (f : A -> M B) : M B :=
  fun s =>
    let (t1, r) := m s in
    match r with
    | Done a s1 => let (t2, r2) := f a s1 in (t1 ++ t2, r2)
    | Throw msg s1 => (t1, Throw msg s1)
    | Exit c s1 => (t1, Exit c s1)
    | Wait s1 => (t1, Wait s1)
    end.

Notation "x <- m ;; k" := (bind m (fun x => k))
  (at level 61, m at next level, right associativity).
Notation "m ;; k" := (bind m (fun _ => k))
  (at level 61, right associativity).

Definition emit (e : event) : M unit := fun s => ([e], Done tt s).
Definition log (m : message) : M unit := emit (Log m).
Definition exit {A} (code : Z) : M A := fun s => ([], Exit code s).
Definition throw {A} (msg : jsstring) : M A := fun s => ([], Throw msg s).

Fixpoint logAll (ms : list message) : M unit :=
  match ms with
  | [] => ret tt
  | m :: r => log m ;; logAll r
  end.

(** [try { m } catch (error) { h error.message }]. *)
Definition tryCatch {A} (m : M A) (h : jsstring -> M A) : M A :=
  fun s =>
    let (t1, r) := m s in
    match r with
    | Throw msg s1 => let (t2, r2) := h msg s1 in (t1 ++ t2, r2)
    | _ => (t1, r)
    end.

Definition when (b : bool) (m : M unit) : M unit := if b then m else ret tt.

(** The property [model]. *)
Definition modelKey : jsstring := js "model".

(** A preference, the object the setup writes. *)
Definition preference (model : jsstring) : json := JObj [(modelKey, JStr model)].

Fixpoint indexedFrom (i : N) (xs : list json) : list (jsstring * json) :=
  match xs with
  | [] => []
  | x :: r => (decimal i, x) :: indexedFrom (N.succ i) r
  end.

(** The own enumerable properties that [{ ...v }] copies. *)
Definition spread (v : json) : list (jsstring * json) :=
  match v with
  | JObj fs => fs
  | JArr xs => indexedFrom 0 xs
  | JStr s => indexedFrom 0 (List.map (fun c => JStr [c]) s)
  | JNull | JBool _ | JNum _ => []
  end.

(** [v.model]: the outer [None] when reading a property of [null] throws,
    the inner one for [undefined]. *)
Definition readModel (v : json) : option (option json) :=
  match v with
  | JNull => None
  | JObj fs => Some (getField modelKey fs)
  | _ => Some None
  end.

Section Session.

Variable w : World.

(** Lines 24-31. *)
Definition loadConfig : M unit :=
  fun s =>
    ([ReadFile],
     Done tt (withConfig
                match file s with
                | Some text =>
                    match parse text with
                    | Some v => v
                    | None => JNull
                    end
                | None => JNull
                end s)).

(** Lines 33-36: the write rejects with the disk's error, or the file holds
    the text and [this.config] the value. *)
Definition saveConfig (c : json) : M unit :=
  fun s =>
    ([WriteFile (stringify2 c)],
     match diskError w with
     | Some msg => Throw msg s
     | None => Done tt (withConfig c (withFile (Some (stringify2 c)) s))
     end).

(** Lines 38-46. *)
Definition checkOllama : M bool :=
  fun s =>
    ([FetchTags],
     Done match tags w (probes s) with
          | TagsAnswer true _ => true
          | _ => false
          end (probed s)).

(** Lines 48-56. *)
Definition getModels : M (list ModelDescriptor) :=
  fun s =>
    ([FetchTags],
     Done match tags w (probes s) with
          | TagsAnswer _ (Some ms) => ms
          | _ => []
          end (probed s)).

(** Lines 58-70: the question is written, then the next line is the answer. *)
Definition prompt (q : question) : M jsstring :=
  fun s =>
    ([Question q],
     match stdin s with
     | l :: rest => Done l (withStdin rest s)
     | [] => Wait s
     end).

(** Lines 80-84: the name at the chosen number, if the number is in range. *)
Definition pick (models : list ModelDescriptor) (choice : jsstring)
  : option jsstring :=
  match parseInt choice with
  | None => None
  | Some n =>
      let index := (n - 1)%Z in
      if ((0 <=? index)%Z && (index <? Z.of_nat (List.length models))%Z)%bool
      then option_map name (nth_error models (Z.to_nat index))
      else None
  end.

(** Lines 78-86: one question per turn of the loop, over the lines the
    operator has left. *)
Fixpoint selectLoop (models : list ModelDescriptor) (lines : list jsstring)
  (s : State) : list event * Res jsstring :=
  match lines with
  | [] => ([Question SelectNumber], Wait (withStdin [] s))
  | choice :: rest =>
      match pick models choice with
      | Some selected =>
          ([Question SelectNumber], Done selected (withStdin rest s))
      | None =>
          let (t, r) := selectLoop models rest s in
          (Question SelectNumber :: Log (Fixed 85) :: t, r)
      end
  end.

Fixpoint modelEntries (i : nat) (models : list ModelDescriptor)
  : list message :=
  match models with
  | [] => []
  | m :: r => ModelEntry (i + 1) (name m) :: modelEntries (S i) r
  end.

(** Lines 72-87. *)
Definition selectModel (models : list ModelDescriptor) : M jsstring :=
  log (Fixed 73) ;;
  logAll (modelEntries 0 models) ;;
  fun s => selectLoop models (stdin s) s.

(** Lines 89-117. *)
Definition setup : M unit :=
  log (Fixed 90) ;;
  ok <- checkOllama ;;
  when (negb ok)
    (logAll [Fixed 93; Fixed 94; Fixed 95; Fixed 96; Fixed 97] ;; exit 1) ;;
  models <- getModels ;;
  when (Nat.eqb (List.length models) 0)
    (logAll [Fixed 103; Fixed 104; Fixed 105; Fixed 106; Fixed 107] ;; exit 1) ;;
  selectedModel <- selectModel models ;;
  saveConfig (preference selectedModel) ;;
  logAll [SetupComplete selectedModel; Fixed 115; Fixed 116].

(** Lines 121-134. *)
Definition osContext (p : Platform) : jsstring :=
  match p with
  | Win32 => js "Windows (Command Prompt/PowerShell)"
  | Darwin => js "macOS (Terminal)"
  | OtherPlatform => js "Linux (Terminal)"
  end.

Definition exampleCommand (p : Platform) : jsstring :=
  match p with
  | Win32 => js "dir /a"
  | Darwin | OtherPlatform => js "ls -la"
  end.

(** Lines 136-150, one list entry per line of the template. *)
Definition buildPrompt (p : Platform) (userInput : jsstring) : jsstring :=
  join newline
    [ js "You are an expert translator that converts English instructions into a single, executable terminal command for "
         ++ osContext p ++ js ".";
      [];
      js "**RULES:**";
      js "1.  ONLY return the raw command appropriate for " ++ osContext p ++ js ".";
      js "2.  Do NOT include any explanation or natural language.";
      js "3.  Do NOT include markdown formatting like ``` or backticks (`).";
      js "4.  Use platform-specific commands (e.g., 'dir' on Windows, 'ls' on Unix/Linux/macOS).";
      [];
      js "**EXAMPLE:**";
      js "Instruction: list all files";
      js "Response: " ++ exampleCommand p;
      [];
      js "**TASK:**";
      js "Instruction: " ++ userInput;
      js "Response:" ].

(** Line 179. *)
Definition generationError (cause : jsstring) : jsstring :=
  js "Failed to generate command: " ++ cause.

(** Lines 119-181.  Everything from the request to the clean-up is inside
    the [try]: reading [model] off a [null] configuration, a failed request
    and a status that is no success all end in the error of line 179. *)
Definition generateCommand (userInput : jsstring) : M jsstring :=
  fun s =>
    let request := buildPrompt (platform w) userInput in
    match readModel (config s) with
    | None =>
        ([], Throw (generationError
                      (js "Cannot read properties of null (reading 'model')")) s)
    | Some model =>
        ([FetchGenerate model request],
         match generation w model request with
         | GenRejected msg => Throw (generationError msg) s
         | GenStatus statusText =>
             Throw (generationError (js "Ollama API error: " ++ statusText)) s
         | GenAnswer response => Done (extractCommand response) s
         end)
    end.

(** Lines 183-202. *)
Definition executeCommand (command : jsstring) : M unit :=
  fun s =>
    ([Spawn command],
     match child w command with
     | ChildExit code =>
         if N.eqb code 0 then Done tt s
         else Throw (js "Command exited with code " ++ decimal code) s
     | ChildKilled => Throw (js "Command exited with code null") s
     | ChildError msg => Throw msg s
     end).

(** Lines 300-313. *)
Definition showHelp : M unit :=
  logAll (List.map Fixed [301; 302; 303; 304; 305; 306; 307; 308; 309; 310;
                          311; 312]).

Inductive Flag : Type := Help | Version | Setup.

(** Lines 209-226: the first argument that is one of the three flags. *)
Fixpoint earlyFlag (args : list jsstring) : option Flag :=
  match args with
  | [] => None
  | arg :: rest =>
      if (JS.eqb arg (js "--help") || JS.eqb arg (js "-h"))%bool then Some Help
      else if (JS.eqb arg (js "--version") || JS.eqb arg (js "-v"))%bool
           then Some Version
      else if (JS.eqb arg (js "--setup") || JS.eqb arg (js "-s"))%bool
           then Some Setup
      else earlyFlag rest
  end.

Fixpoint findIndex {A} (p : A -> bool) (l : list A) : option nat :=
  match l with
  | [] => None
  | x :: r => if p x then Some 0 else option_map S (findIndex p r)
  end.

Definition isModelFlag (arg : jsstring) : bool :=
  (JS.eqb arg (js "--model") || JS.eqb arg (js "-m"))%bool.

(** Lines 232-238: the override and the arguments that remain. *)
Definition parseOverride (args : list jsstring)
  : option jsstring * list jsstring :=
  match findIndex isModelFlag args with
  | None => (None, args)
  | Some modelIndex =>
      match nth_error args (modelIndex + 1) with
      | None => (None, args)
      | Some value =>
          if JS.truthy value
          then (Some value, firstn modelIndex args ++ skipn (modelIndex + 2) args)
          else (None, args)
      end
  end.

Definition getConfig : M json := fun s => ([], Done (config s) s).

(** Line 249. *)
Definition overrideModel (m : jsstring) : M unit :=
  fun s =>
    ([], Done tt (withConfig (JObj (setField modelKey (JStr m)
                                      (spread (config s)))) s)).

(** Lines 229-250: the model of this run; the value is [remainingArgs]. *)
Definition resolveModel : M (list jsstring) :=
  loadConfig ;;
  let (modelOverride, remainingArgs) := parseOverride (argv w) in
  c <- getConfig ;;
  when (negb (Json.truthy c)
        && match modelOverride with Some _ => false | None => true end)%bool
    (log (Fixed 242) ;; setup ;; log (Fixed 244)) ;;
  match modelOverride with
  | Some m => overrideModel m
  | None => ret tt
  end ;;
  ret remainingArgs.

(** Lines 253-257: the availability check before generation. *)
Definition gate : M unit :=
  ok <- checkOllama ;;
  when (negb ok) (logAll [Fixed 254; Fixed 255] ;; exit 1).

(** Lines 260-270. *)
Definition readInstruction (remainingArgs : list jsstring) : M jsstring :=
  userInput <- match remainingArgs with
               | [] => prompt EnterCommand
               | _ :: _ => ret (join (js " ") remainingArgs)
               end ;;
  when (negb (JS.truthy (trim userInput))) (log (Fixed 268) ;; exit 1) ;;
  ret userInput.

(** Line 278: the command is refused. *)
Definition refused (command : jsstring) : bool :=
  (negb (JS.truthy command) || JS.eqb command (js "null"))%bool.

(** Lines 283-293: the command is shown and one line decides. *)
Definition confirmStep (command : jsstring) : M unit :=
  log (Suggested command) ;;
  log (Fixed 284) ;;
  confirm <- prompt Confirm ;;
  if JS.eqb confirm []
  then log (Running command) ;; executeCommand command
  else log (Fixed 292).

(** Lines 294-297: the [catch] of the run. *)
Definition reportAndExit (msg : jsstring) : M unit :=
  log (ErrorLine msg) ;; exit 1.

(** Lines 275-297. *)
Definition deliver (userInput : jsstring) : M unit :=
  tryCatch
    (command <- generateCommand userInput ;;
     when (refused command) (log (Fixed 279) ;; exit 1) ;;
     confirmStep command)
    reportAndExit.


(** Lines 252-297: from the availability check to the end of the run. *)
Definition session (remainingArgs : list jsstring) : M unit :=
  gate ;;
  userInput <- readInstruction remainingArgs ;;
  log (Fixed 273) ;;
  deliver userInput.

(** Lines 204-298. *)
Definition run : M unit :=
  match earlyFlag (argv w) with
  | Some Help => showHelp
  | Some Version => log (Fixed 218)
  | Some Setup => setup
  | None =>
      remainingArgs <- resolveModel ;;
      session remainingArgs
  end.

(** Lines 15-22: the constructor echoes the arguments when DEBUG is set to
    a string that is not empty. *)
Definition debugging : bool :=
  match envDEBUG w with
  | Some v => JS.truthy v
  | None => false
  end.

Definition construct : list event :=
  if debugging then [Log (RawArgs (argv w))] else [].

Definition initial : State :=
  {| config := JNull; file := configFile w; probes := 0;
     stdin := operator w |}.

(** What an invocation leaves: the exit code ([None] while the process waits
    for a line), the preference file and the events in order. *)
Record Outcome : Type := {
  exitCode : option Z;
  finalFile : option jsstring;
  output : list event
}.

(** Lines 317-321: an error that leaves [run] is printed, and the exit code
    is 1; a run that returns ends the process with code 0. *)
Definition main : Outcome :=
  let (t, r) := run initial in
  match r with
  | Done _ s =>
      {| exitCode := Some 0%Z; finalFile := file s; output := construct ++ t |}
  | Throw msg s =>
      {| exitCode := Some 1%Z; finalFile := file s;
         output := construct ++ t ++ [Log (ErrorLine msg)] |}
  | Exit c s =>
      {| exitCode := Some c; finalFile := file s; output := construct ++ t |}
  | Wait s =>
      {| exitCode := None; finalFile := file s; output := construct ++ t |}
  end.

End Session.

End Cli.

(** ** Vocabulary of the properties *)

Module Shape.

Import Json Cli.

(** No backtick in the text. *)
Definition noTick (s : jsstring) : Prop := includes tick s = false.

(** The text contains a fence marker, three backticks in a row. *)
Fixpoint hasFence (s : jsstring) : bool :=
  match s with
  | [] => false
  | a :: t =>
      match t with
      | b :: c :: _ => (isTick a && isTick b && isTick c) || hasFence t
      | _ => false
      end
  end%bool.

Definition lastUnit (s : jsstring) : option N :=
  match rev s with
  | [] => None
  | c :: _ => Some c
  end.

(** Neither the first nor the last unit is white space. *)
Definition edgesClean (s : jsstring) : bool :=
  (match s with [] => true | c :: _ => negb (isWhiteSpace c) end
   && match lastUnit s with None => true | Some c => negb (isWhiteSpace c) end)%bool.

(** The text is white space and fence markers, nothing else. *)
Fixpoint fencesOnly (s : jsstring) : bool :=
  match s with
  | [] => true
  | a :: t =>
      if isWhiteSpace a then fencesOnly t
      else match t with
           | b :: c :: r => (isTick a && isTick b && isTick c) && fencesOnly r
           | _ => false
           end
  end%bool.

(** [raw] holds one backtick-delimited span, two backticks with [interior]
    between them and no other backtick. *)
Definition oneSpan (raw interior : jsstring) : Prop :=
  exists pre post,
    raw = pre ++ tick :: interior ++ tick :: post
    /\ noTick pre /\ noTick interior /\ noTick post.


(** With fuel [m] a successful parse consumes at least one unit, and
    succeeds alike with any fuel that is at least the number of units it
    consumes. *)
Definition fuelEnough {X : Type}
  (parser : nat -> jsstring -> X -> option (json * jsstring)) (m : nat)
  : Prop :=
  forall s x v rest,
    parser m s x = Some (v, rest) ->
    List.length rest < List.length s
    /\ forall n, List.length s - List.length rest <= n ->
                 parser n s x = Some (v, rest).


(** A request to the generation endpoint. *)
Definition isGenerate (e : event) : bool :=
  match e with FetchGenerate _ _ => true | _ => false end.

Definition isSpawn (e : event) : bool :=
  match e with Spawn _ => true | _ => false end.

(** The source lines of the fixed texts that only the setup prints: those
    of [selectModel] and [setup], and the two around the first-time setup. *)
Definition setupLines : list nat :=
  [73; 85; 90; 93; 94; 95; 96; 97; 103; 104; 105; 106; 107; 115; 116;
   242; 244].

(** The events only the setup produces: its lines, the model list and its
    question, and the write of the file. *)
Definition isSetupEvent (e : event) : bool :=
  match e with
  | Log (Fixed n) => existsb (Nat.eqb n) setupLines
  | Log (ModelEntry _ _) | Log (SetupComplete _) => true
  | Question SelectNumber => true
  | WriteFile _ => true
  | _ => false
  end.

(** The same world with another value of the DEBUG variable. *)
Definition setDEBUG (d : option jsstring) (w : World) : World :=
  {| argv := argv w; envDEBUG := d; platform := platform w;
     configFile := configFile w; diskError := diskError w; tags := tags w;
     generation := generation w; operator := operator w; child := child w |}.

(** The state a computation ends in. *)
Definition stateOf {A} (r : Res A) : State :=
  match r with
  | Done _ s | Throw _ s | Exit _ s | Wait s => s
  end.

(** Every event a computation writes satisfies [P], whatever the state it
    starts in. *)
Definition emits (P : event -> bool) {A} (m : M A) : Prop :=
  forall s, forallb P (fst (m s)) = true.

(** A computation leaves the preference file as it found it. *)
Definition keepsFile {A} (m : M A) : Prop :=
  forall s, file (stateOf (snd (m s))) = file s.

Definition notGenerate (e : event) : bool := negb (isGenerate e).
Definition notSetup (e : event) : bool := negb (isSetupEvent e).

(** The questions and notices of the turns of the selection loop that
    [bad] lines cost. *)
Definition retries (bad : list jsstring) : list event :=
  flat_map (fun _ => [Question SelectNumber; Log (Fixed 85)]) bad.

(** The models the [n]-th request to /api/tags lists. *)
Definition offered (w : World) (n : nat) : list ModelDescriptor :=
  match tags w n with
  | TagsAnswer _ (Some ms) => ms
  | _ => []
  end.

(** The [n]-th request to /api/tags is answered with a success status. *)
Definition reachable (w : World) (n : nat) : bool :=
  match tags w n with
  | TagsAnswer true _ => true
  | _ => false
  end.

(** What the setup prints before its first question: the banner, the two
    requests, the heading and the numbered models. *)
Definition setupHead (models : list ModelDescriptor) : list event :=
  [Log (Fixed 90); FetchTags; FetchTags; Log (Fixed 73)]
  ++ List.map Log (modelEntries 0 models).

Definition isQuestion (e : event) : bool :=
  match e with Question _ => true | _ => false end.

Definition isWrite (e : event) : bool :=
  match e with WriteFile _ => true | _ => false end.

(** No argument of the list is the model flag. *)
Definition noModelFlag (args : list jsstring) : bool :=
  forallb (fun a => negb (isModelFlag a)) args.

(** The argument is one of the six spellings of the help, version and
    setup flags. *)
Definition isEarlyFlag (arg : jsstring) : bool :=
  match earlyFlag [arg] with Some _ => true | None => false end.

(** The events of the session proper: the instruction question, the request
    to the generation endpoint, the confirmation question and the spawn. *)
Definition isSessionEvent (e : event) : bool :=
  match e with
  | FetchGenerate _ _ | Spawn _ => true
  | Question Confirm | Question EnterCommand => true
  | _ => false
  end.

Definition notSession (e : event) : bool := negb (isSessionEvent e).

Definition isLog (e : event) : bool :=
  match e with Log _ => true | _ => false end.

(** A computation ends tidily: when it exits the code is 1, and when it
    waits the last thing it did was to ask a question. *)
Definition tidy {A} (m : M A) : Prop :=
  forall s t r,
    m s = (t, r) ->
    match r with
    | Exit c _ => c = 1%Z
    | Wait _ => exists t' q, t = t' ++ [Question q]
    | _ => True
    end.

Definition notSpawn (e : event) : bool := negb (isSpawn e).

(** The events hold no spawn, or exactly one, and then it comes straight
    after the display of the same command, the hint, the confirmation
    question and the notice that the command runs. *)
Definition confirmedSpawn (t : list event) : Prop :=
  forallb notSpawn t = true
  \/ exists before c after,
       t = before
           ++ [Log (Suggested c); Log (Fixed 284); Question Confirm;
               Log (Running c); Spawn c]
           ++ after
       /\ forallb notSpawn before = true
       /\ forallb notSpawn after = true.

Definition guarded {A} (m : M A) : Prop :=
  forall s, confirmedSpawn (fst (m s)).

(** The part of the prompt before the task: role, rules and example. *)
Definition promptHead (p : Platform) : jsstring :=
  join newline
    [ js "You are an expert translator that converts English instructions into a single, executable terminal command for "
         ++ osContext p ++ js ".";
      [];
      js "**RULES:**";
      js "1.  ONLY return the raw command appropriate for " ++ osContext p ++ js ".";
      js "2.  Do NOT include any explanation or natural language.";
      js "3.  Do NOT include markdown formatting like ``` or backticks (`).";
      js "4.  Use platform-specific commands (e.g., 'dir' on Windows, 'ls' on Unix/Linux/macOS).";
      [];
      js "**EXAMPLE:**";
      js "Instruction: list all files";
      js "Response: " ++ exampleCommand p;
      [];
      js "**TASK:**" ].

(** A world where the service is up and offers [models], the generation
    answers [answer] and every command exits with code 0. *)
Definition servedWorld (args : list jsstring) (saved : option jsstring)
  (models : list ModelDescriptor) (answer : jsstring)
  (lines : list jsstring) : World :=
  {| argv := args; envDEBUG := None; platform := OtherPlatform;
     configFile := saved; diskError := None;
     tags := fun _ => TagsAnswer true (Some models);
     generation := fun _ _ => GenAnswer answer;
     operator := lines; child := fun _ => ChildExit 0 |}.

End Shape.

(** * Properties *)

Example extract_plain : extractCommand (js "  ls -la  ") = js "ls -la".
Proof. reflexivity. Qed.

Example extract_span : extractCommand (js "Use `ls -la` now") = js "ls -la".
Proof. reflexivity. Qed.

Example extract_padded : extractCommand (js "` ls `") = js " ls ".
Proof. reflexivity. Qed.

Example extract_fence : extractCommand (js "```") = js "```".
Proof. reflexivity. Qed.

Example parseInt_samples :
  parseInt (js " 12abc") = Some 12%Z /\ parseInt (js "-0x1f") = Some (-31)%Z
  /\ parseInt (js "0x") = None /\ parseInt (js "two") = None.
Proof. repeat split. Qed.

Import Json Cli Shape.

Example number_truthiness :
  List.map (fun l => Json.truthy (JNum (js l)))
    ["0"; "-0"; "0.000"; "0e5"; "1"; "-0.5"; "1e-400"; "2e-324"; "3e-324";
     "5e-324"; "0.1E+1"]%string
  = [false; false; false; false; true; true; false; false; true; true; true].
Proof. vm_compute. reflexivity. Qed.

Example parse_nested :
  parse (js " [[1, -2.5e3], null, true, {}] ")
  = Some (JArr [JArr [JNum (js "1"); JNum (js "-2.5e3")]; JNull; JBool true;
                JObj []])
  /\ parse (js "[1,]") = None /\ parse (js "01") = None.
Proof. repeat split. Qed.

(** A first run: no preference file, two models offered, the operator
    mistypes once, picks the second model and confirms the command. *)
Example first_run :
  let o := main (servedWorld [js "list"; js "files"] None
                   [{| name := js "llama3" |}; {| name := js "mistral:7b" |}]
                   (js "`ls -la`") [js "x"; js "2"; []]) in
  exitCode o = Some 0%Z
  /\ finalFile o = Some (stringify2 (preference (js "mistral:7b")))
  /\ output o
     = [ReadFile; Log (Fixed 242); Log (Fixed 90); FetchTags; FetchTags;
        Log (Fixed 73); Log (ModelEntry 1 (js "llama3"));
        Log (ModelEntry 2 (js "mistral:7b"));
        Question SelectNumber; Log (Fixed 85); Question SelectNumber;
        WriteFile (stringify2 (preference (js "mistral:7b")));
        Log (SetupComplete (js "mistral:7b")); Log (Fixed 115);
        Log (Fixed 116); Log (Fixed 244); FetchTags; Log (Fixed 273);
        FetchGenerate (Some (JStr (js "mistral:7b")))
          (buildPrompt OtherPlatform (js "list files"));
        Log (Suggested (js "ls -la")); Log (Fixed 284); Question Confirm;
        Log (Running (js "ls -la")); Spawn (js "ls -la")].
Proof. repeat split. Qed.

(** ** White space and backticks *)

Lemma noTick_app (a b : jsstring) :
  noTick (a ++ b) <-> noTick a /\ noTick b.
Proof.
  unfold noTick, includes. rewrite existsb_app, orb_false_iff. tauto.
Qed.

Lemma noTick_cons (c : N) (s : jsstring) :
  noTick (c :: s) <-> isTick c = false /\ noTick s.
Proof.
  unfold noTick, includes, isTick. simpl. rewrite orb_false_iff, N.eqb_sym. tauto.
Qed.

Lemma includes_cons (c : N) (s : jsstring) :
  includes tick (c :: s) = (isTick c || includes tick s)%bool.
Proof. unfold includes, isTick. simpl. now rewrite N.eqb_sym. Qed.

Lemma includes_mid (pre post : jsstring) :
  includes tick (pre ++ tick :: post) = true.
Proof.
  unfold includes. rewrite existsb_app. apply orb_true_iff. right.
  reflexivity.
Qed.

Lemma untilTick_run (mid post : jsstring) :
  noTick mid -> untilTick (mid ++ tick :: post) = Some (mid, post).
Proof.
  induction mid as [|c mid IH]; intros H; simpl.
  - reflexivity.
  - apply noTick_cons in H. destruct H as [Hc H].
    rewrite Hc, (IH H). reflexivity.
Qed.

Lemma untilTick_none (s : jsstring) : noTick s -> untilTick s = None.
Proof.
  induction s as [|c s IH]; intros H; simpl.
  - reflexivity.
  - apply noTick_cons in H. destruct H as [Hc H].
    rewrite Hc, (IH H). reflexivity.
Qed.

Lemma matchSpan_none (s : jsstring) : noTick s -> matchSpan s = None.
Proof.
  induction s as [|c s IH]; intros H; simpl.
  - reflexivity.
  - apply noTick_cons in H. destruct H as [Hc H].
    rewrite Hc. auto.
Qed.

(** The leftmost match starts at the first backtick and ends at the second. *)
Lemma matchSpan_first (pre mid post : jsstring) :
  noTick pre -> noTick mid ->
  matchSpan (pre ++ tick :: mid ++ tick :: post) = Some mid.
Proof.
  induction pre as [|c pre IH]; intros Hp Hm.
  - simpl. now rewrite (untilTick_run post Hm).
  - apply noTick_cons in Hp. destruct Hp as [Hc Hp].
    simpl. rewrite Hc. auto.
Qed.

(** A lone backtick matches nowhere. *)
Lemma matchSpan_lone (pre post : jsstring) :
  noTick pre -> noTick post -> matchSpan (pre ++ tick :: post) = None.
Proof.
  induction pre as [|c pre IH]; intros Hp Hq.
  - simpl. rewrite (untilTick_none Hq). now apply matchSpan_none.
  - apply noTick_cons in Hp. destruct Hp as [Hc Hp].
    simpl. rewrite Hc. auto.
Qed.

Lemma removeFences_noTick (s : jsstring) : noTick s -> removeFences s = s.
Proof.
  induction s as [|a t IH]; intros H.
  - reflexivity.
  - apply noTick_cons in H. destruct H as [Ha H].
    cbn [removeFences]. destruct t as [|b [|c r]]; try reflexivity.
    rewrite Ha. cbn [andb]. f_equal. now apply IH.
Qed.

Lemma isTick_eq (c : N) : isTick c = true -> c = tick.
Proof. unfold isTick. apply N.eqb_eq. Qed.

(** A text with a backtick splits at its first one. *)
Lemma split_tick (s : jsstring) :
  includes tick s = true ->
  exists pre post, s = pre ++ tick :: post /\ noTick pre.
Proof.
  induction s as [|c s IH]; intros H.
  - discriminate.
  - rewrite includes_cons in H. destruct (isTick c) eqn:Hc.
    + exists [], s. split; [|reflexivity].
      now rewrite (isTick_eq c Hc).
    + destruct (IH H) as (pre & post & -> & Hp).
      exists (c :: pre), post. split; [reflexivity|].
      apply noTick_cons. auto.
Qed.

Lemma noTick_dec (s : jsstring) : noTick s \/ includes tick s = true.
Proof. unfold noTick. destruct (includes tick s); auto. Qed.

Lemma noTick_rev (s : jsstring) : noTick s -> noTick (rev s).
Proof.
  induction s as [|c s IH]; intros H; [exact H|].
  apply noTick_cons in H. destruct H as [Hc H]. simpl.
  apply noTick_app. split; [auto|]. apply noTick_cons. split; [exact Hc|reflexivity].
Qed.

Lemma noTick_trimStart (s : jsstring) : noTick s -> noTick (trimStart s).
Proof.
  induction s as [|c s IH]; intros H; [exact H|].
  simpl. destruct (isWhiteSpace c); [|exact H].
  apply IH. now apply noTick_cons in H.
Qed.

Lemma noTick_trim (s : jsstring) : noTick s -> noTick (trim s).
Proof.
  intros H. unfold trim, trimEnd.
  auto using noTick_rev, noTick_trimStart.
Qed.

Lemma noTick_hasFence (s : jsstring) : noTick s -> hasFence s = false.
Proof.
  induction s as [|a t IH]; intros H; [reflexivity|].
  apply noTick_cons in H. destruct H as [Ha H].
  cbn [hasFence]. destruct t as [|b [|c r]]; try reflexivity.
  rewrite Ha. cbn [andb orb]. now apply IH.
Qed.

(** ** The four cases of the extraction *)

Lemma extract_noTick (raw : jsstring) :
  noTick raw -> extractCommand raw = trim raw.
Proof.
  intros H. unfold extractCommand. rewrite H.
  now rewrite (removeFences_noTick H).
Qed.

Lemma extract_lone_tick (pre post : jsstring) :
  noTick pre -> noTick post ->
  extractCommand (pre ++ tick :: post) = pre ++ tick :: post.
Proof.
  intros Hp Hq. unfold extractCommand.
  now rewrite includes_mid, (matchSpan_lone Hp Hq).
Qed.

Lemma extract_adjacent (pre post : jsstring) :
  noTick pre ->
  extractCommand (pre ++ tick :: tick :: post) = pre ++ tick :: tick :: post.
Proof.
  intros Hp. unfold extractCommand. rewrite includes_mid.
  change (tick :: tick :: post) with (tick :: [] ++ tick :: post).
  rewrite (@matchSpan_first pre [] post Hp); reflexivity.
Qed.

Lemma extract_first_span (pre mid post : jsstring) :
  noTick pre -> noTick mid -> mid <> [] ->
  extractCommand (pre ++ tick :: mid ++ tick :: post) = mid.
Proof.
  intros Hp Hm Hne. unfold extractCommand.
  rewrite includes_mid, (matchSpan_first post Hp Hm).
  destruct mid; [contradiction|reflexivity].
Qed.

(** Every text falls in one of the four shapes. *)
Lemma tick_shapes (raw : jsstring) :
  noTick raw
  \/ (exists pre post, raw = pre ++ tick :: post /\ noTick pre /\ noTick post)
  \/ (exists pre post, raw = pre ++ tick :: tick :: post /\ noTick pre)
  \/ (exists pre mid post,
        raw = pre ++ tick :: mid ++ tick :: post
        /\ noTick pre /\ noTick mid /\ mid <> []).
Proof.
  destruct (noTick_dec raw) as [H|H]; [now left|right].
  destruct (split_tick raw H) as (pre & rest & -> & Hp).
  destruct (noTick_dec rest) as [Hr|Hr].
  - left. now exists pre, rest.
  - right. destruct (split_tick rest Hr) as (mid & post & -> & Hm).
    destruct mid as [|c mid].
    + left. now exists pre, post.
    + right. exists pre, (c :: mid), post. repeat split; auto. discriminate.
Qed.

(** ** Command extraction *)

(** C1, as stated, fails twice: the interior of the one span is returned
    with its white space, and a span with an empty interior gives back the
    whole text. *)
Lemma one_span_counterexample :
  (oneSpan (js "` ls `") (js " ls ")
   /\ edgesClean (extractCommand (js "` ls `")) = false)
  /\ (oneSpan (js "``") [] /\ extractCommand (js "``") <> []).
Proof.
  split; split.
  - exists [], []. repeat split.
  - reflexivity.
  - exists [], []. repeat split.
  - discriminate.
Qed.

(** C1, amended: for every raw response holding exactly one
    backtick-delimited span whose interior is not empty and has no white
    space at either end, the extraction returns exactly that interior, and
    the result has no leading or trailing white space. *)
Theorem extract_one_span (raw interior : jsstring) :
  oneSpan raw interior ->
  interior <> [] ->
  edgesClean interior = true ->
  extractCommand raw = interior /\ edgesClean (extractCommand raw) = true.
Proof.
  intros (pre & post & -> & Hp & Hm & _) Hne Hclean.
  rewrite (extract_first_span post Hp Hm Hne). auto.
Qed.

Lemma extract_one_span_witness :
  extractCommand (js "Use `ls -la` now") = js "ls -la"
  /\ edgesClean (extractCommand (js "Use `ls -la` now")) = true.
Proof.
  apply (@extract_one_span (js "Use `ls -la` now") (js "ls -la")).
  - exists (js "Use "), (js " now"). repeat split.
  - discriminate.
  - reflexivity.
Defined.

(** C4: a response that is one fence marker and nothing else is returned as
    it is, fence included, where the claim has the empty string. *)
Theorem fence_only_response_kept :
  fencesOnly (js "```") = true
  /\ extractCommand (js "```") = js "```"
  /\ refused (extractCommand (js "```")) = false.
Proof. repeat split. Qed.

(** C5, as stated, fails where the text has a backtick and no span: the
    result is the raw text, not the trimmed one. *)
Lemma unterminated_not_trimmed :
  matchSpan (js " ls `") = None
  /\ extractCommand (js " ls `") = js " ls `"
  /\ trim (js " ls `") = js "ls `".
Proof. repeat split. Qed.

(** C5, amended: the extraction has a result for every text; the empty text
    gives the empty text; a text with no backtick gives the trimmed text; a
    text with a lone backtick, an unterminated span from which nothing can
    be extracted, comes back unchanged (not trimmed); a text whose first
    span has a non-empty interior gives that interior.  The one remaining
    shape, a text whose first two backticks are adjacent, is named and
    nothing is said of its result. *)
Theorem extract_total (raw : jsstring) :
  extractCommand [] = []
  /\ ((noTick raw /\ extractCommand raw = trim raw)
      \/ (exists pre post,
            raw = pre ++ tick :: post /\ noTick pre /\ noTick post
            /\ extractCommand raw = raw)
      \/ (exists pre post,
            raw = pre ++ tick :: tick :: post /\ noTick pre)
      \/ (exists pre mid post,
            raw = pre ++ tick :: mid ++ tick :: post
            /\ noTick pre /\ noTick mid /\ mid <> []
            /\ extractCommand raw = mid)).
Proof.
  split; [reflexivity|].
  destruct (tick_shapes raw)
    as [H|[(pre & post & E & Hp & Hq)|[(pre & post & E & Hp)
       |(pre & mid & post & E & Hp & Hm & Hne)]]].
  - left. split; [exact H|now apply extract_noTick].
  - right; left. exists pre, post. repeat split; auto.
    rewrite E. now apply extract_lone_tick.
  - right; right; left. exists pre, post. split; auto.
  - right; right; right. exists pre, mid, post. repeat split; auto.
    rewrite E. now apply extract_first_span.
Qed.

(** C10: when the first two backticks of a response are adjacent, the
    extraction returns the whole response, unchanged and not trimmed. *)
Theorem extract_empty_span_is_identity (pre post : jsstring) :
  noTick pre ->
  extractCommand (pre ++ tick :: tick :: post) = pre ++ tick :: tick :: post.
Proof.
  intros Hp. unfold extractCommand. rewrite includes_mid.
  change (tick :: tick :: post) with (tick :: [] ++ tick :: post).
  rewrite (@matchSpan_first pre [] post Hp); reflexivity.
Qed.

Lemma extract_empty_span_is_identity_witness :
  extractCommand (js " ```ls``` ") = js " ```ls``` ".
Proof.
  apply (@extract_empty_span_is_identity (js " ") (js "`ls``` ")).
  reflexivity.
Defined.

(** ** The confirmation gesture *)

Lemma eqb_nil (s : jsstring) : JS.eqb s [] = negb (JS.truthy s).
Proof. destruct s; reflexivity. Qed.

Lemma eqb_true (a b : jsstring) : JS.eqb a b = true <-> a = b.
Proof.
  unfold JS.eqb. destruct (list_eq_dec N.eq_dec a b); split; auto; discriminate.
Qed.

(** C3: at the confirmation step the empty line leads to the execution of
    the extracted command, and any other line ends the step with the
    cancellation notice and no execution. *)
Theorem confirm_gesture (w : World) (command line : jsstring)
  (rest : list jsstring) (s : State) :
  stdin s = line :: rest ->
  (line = [] ->
   confirmStep w command s =
     ([Log (Suggested command); Log (Fixed 284); Question Confirm;
       Log (Running command); Spawn command],
      snd (executeCommand w command (withStdin rest s))))
  /\ (line <> [] ->
      confirmStep w command s =
        ([Log (Suggested command); Log (Fixed 284); Question Confirm;
          Log (Fixed 292)],
         Done tt (withStdin rest s))
      /\ existsb isSpawn (fst (confirmStep w command s)) = false).
Proof.
  intros Hin. split.
  - intros ->. unfold confirmStep, bind, log, emit, prompt, executeCommand.
    rewrite Hin. cbn.
    destruct (child w command) as [code| |msg]; [destruct (N.eqb code 0)| |];
      reflexivity.
  - intros Hne.
    assert (E : confirmStep w command s =
        ([Log (Suggested command); Log (Fixed 284); Question Confirm;
          Log (Fixed 292)],
         Done tt (withStdin rest s))).
    { unfold confirmStep, bind, log, emit, prompt. rewrite Hin.
      destruct line as [|c l]; [contradiction|]. reflexivity. }
    rewrite E. split; reflexivity.
Qed.

Lemma confirm_gesture_witness :
  let w := servedWorld [] None [] (js "ls") [] in
  let s := {| config := JNull; file := None; probes := 0;
              stdin := [js "n"] |} in
  confirmStep w (js "ls") s =
    ([Log (Suggested (js "ls")); Log (Fixed 284); Question Confirm;
      Log (Fixed 292)],
     Done tt (withStdin [] s))
  /\ existsb isSpawn (fst (confirmStep w (js "ls") s)) = false.
Proof.
  intros w s.
  apply (@confirm_gesture w (js "ls") (js "n") [] s).
  - reflexivity.
  - discriminate.
Defined.

(** ** The gate after generation *)

Lemma refused_iff (command : jsstring) :
  refused command = true <-> command = [] \/ command = js "null".
Proof.
  unfold refused. rewrite orb_true_iff, eqb_true.
  destruct command; simpl; intuition congruence.
Qed.

(** C2, as stated, fails: a response with a lone backtick is extracted to
    itself, passes the gate and is executed with its backtick. *)
Lemma backtick_command_accepted :
  refused (extractCommand (js "echo `date")) = false
  /\ includes tick (extractCommand (js "echo `date")) = true
  /\ In (Spawn (js "echo `date"))
        (output (main (servedWorld [js "-m"; js "m"; js "date"] None []
                         (js "echo `date") [[]]))).
Proof.
  split; [reflexivity|]. split; [reflexivity|].
  vm_compute. do 8 right. left. reflexivity.
Qed.

(** C2, amended: a command the run goes on with is not empty and is not the
    string null; it has no backtick, hence no fence marker, whenever the raw
    response has no backtick or its first span has a non-empty interior;
    and whenever the extraction yields the empty string or the string null
    the run fails at once: the notice, exit code 1, no question and no
    execution. *)
Theorem accepted_command_invariant (w : World) (userInput raw : jsstring)
  (model : option json) (s : State) :
  readModel (config s) = Some model ->
  generation w model (buildPrompt (platform w) userInput) = GenAnswer raw ->
  (refused (extractCommand raw) = true
   <-> extractCommand raw = [] \/ extractCommand raw = js "null")
  /\ (refused (extractCommand raw) = true ->
   deliver w userInput s =
     ([FetchGenerate model (buildPrompt (platform w) userInput);
       Log (Fixed 279)], Exit 1 s))
  /\ (refused (extractCommand raw) = false ->
      extractCommand raw <> [] /\ extractCommand raw <> js "null"
      /\ deliver w userInput s =
           (FetchGenerate model (buildPrompt (platform w) userInput)
              :: fst (tryCatch (confirmStep w (extractCommand raw))
                        reportAndExit s),
            snd (tryCatch (confirmStep w (extractCommand raw))
                   reportAndExit s)))
  /\ (noTick raw
      \/ (exists pre mid post,
            raw = pre ++ tick :: mid ++ tick :: post
            /\ noTick pre /\ noTick mid /\ mid <> []) ->
      noTick (extractCommand raw) /\ hasFence (extractCommand raw) = false).
Proof.
  intros Hm Hg. split; [apply refused_iff|]. split; [|split].
  - intros Hr. unfold deliver, tryCatch, bind, generateCommand.
    rewrite Hm, Hg, Hr. reflexivity.
  - intros Hr. split; [|split].
    + intros E. pose proof (proj2 (refused_iff _) (or_introl E)). congruence.
    + intros E. pose proof (proj2 (refused_iff _) (or_intror E)). congruence.
    + unfold deliver, tryCatch, bind, generateCommand.
      rewrite Hm, Hg, Hr. cbn [when ret].
      destruct (confirmStep w (extractCommand raw) s) as [t [a s1|msg s1|c s1|s1]];
        cbn; try reflexivity.
  - intros [H|(pre & mid & post & -> & Hp & Hmid & Hne)].
    + rewrite (extract_noTick H).
      split; [now apply noTick_trim|].
      apply noTick_hasFence. now apply noTick_trim.
    + rewrite (extract_first_span post Hp Hmid Hne).
      split; [exact Hmid|now apply noTick_hasFence].
Qed.

Lemma accepted_command_invariant_witness :
  let w := servedWorld [js "files"] None [] (js "null") [] in
  let s := {| config := preference (js "m"); file := None; probes := 0;
              stdin := [] |} in
  deliver w (js "files") s =
    ([FetchGenerate (Some (JStr (js "m")))
        (buildPrompt OtherPlatform (js "files"));
      Log (Fixed 279)], Exit 1 s).
Proof.
  intros w s.
  apply (@accepted_command_invariant w (js "files") (js "null")
           (Some (JStr (js "m"))) s); reflexivity.
Defined.

(** ** What a computation writes, and what it leaves of the file *)

Section Emits.

Variable P : event -> bool.

Lemma emits_ret {A} (a : A) : emits P (ret a).
Proof. intros s. reflexivity. Qed.

Lemma emits_exit {A} (c : Z) : emits P (@exit A c).
Proof. intros s. reflexivity. Qed.

Lemma emits_emit (e : event) : P e = true -> emits P (emit e).
Proof. intros H s. simpl. now rewrite H. Qed.

Lemma emits_bind {A B} (m : M A) (f : A -> M B) :
  emits P m -> (forall a, emits P (f a)) -> emits P (bind m f).
Proof.
  intros Hm Hf s. unfold bind. specialize (Hm s).
  destruct (m s) as [t1 [a s1|msg s1|c s1|s1]]; simpl in *; auto.
  specialize (Hf a s1). destruct (f a s1) as [t2 r2]. simpl in *.
  rewrite forallb_app, Hm, Hf. reflexivity.
Qed.

Lemma emits_when (b : bool) (m : M unit) : emits P m -> emits P (when b m).
Proof. destruct b; simpl; auto using emits_ret. Qed.

Lemma emits_logAll (ms : list message) :
  forallb (fun m => P (Log m)) ms = true -> emits P (logAll ms).
Proof.
  induction ms as [|m ms IH]; simpl; intros H.
  - apply emits_ret.
  - apply andb_true_iff in H. destruct H as [H1 H2].
    apply emits_bind; [now apply emits_emit|auto].
Qed.

Lemma emits_tryCatch {A} (m : M A) (h : jsstring -> M A) :
  emits P m -> (forall msg, emits P (h msg)) -> emits P (tryCatch m h).
Proof.
  intros Hm Hh s. unfold tryCatch. specialize (Hm s).
  destruct (m s) as [t1 [a s1|msg s1|c s1|s1]]; simpl in *; auto.
  specialize (Hh msg s1). destruct (h msg s1) as [t2 r2]. simpl in *.
  rewrite forallb_app, Hm, Hh. reflexivity.
Qed.

Lemma emits_checkOllama (w : World) :
  P FetchTags = true -> emits P (checkOllama w).
Proof. intros H s. simpl. now rewrite H. Qed.

Lemma emits_getModels (w : World) :
  P FetchTags = true -> emits P (getModels w).
Proof. intros H s. simpl. now rewrite H. Qed.

Lemma emits_prompt (q : question) :
  P (Question q) = true -> emits P (prompt q).
Proof. intros H s. simpl. now rewrite H. Qed.

Lemma emits_loadConfig : P ReadFile = true -> emits P loadConfig.
Proof. intros H s. simpl. now rewrite H. Qed.

Lemma emits_getConfig : emits P getConfig.
Proof. intros s. reflexivity. Qed.

Lemma emits_overrideModel (m : jsstring) : emits P (overrideModel m).
Proof. intros s. reflexivity. Qed.

Lemma emits_saveConfig (w : World) (c : json) :
  P (WriteFile (stringify2 c)) = true -> emits P (saveConfig w c).
Proof. intros H s. simpl. now rewrite H. Qed.

Lemma emits_executeCommand (w : World) (command : jsstring) :
  P (Spawn command) = true -> emits P (executeCommand w command).
Proof. intros H s. simpl. now rewrite H. Qed.

Lemma emits_selectLoop (models : list ModelDescriptor) (lines : list jsstring)
  (s : State) :
  P (Question SelectNumber) = true -> P (Log (Fixed 85)) = true ->
  forallb P (fst (selectLoop models lines s)) = true.
Proof.
  intros Hq Hl. induction lines as [|choice rest IH]; simpl.
  - now rewrite Hq.
  - destruct (pick models choice).
    + simpl. now rewrite Hq.
    + destruct (selectLoop models rest s) as [t r]. simpl in *.
      now rewrite Hq, Hl, IH.
Qed.

End Emits.

Lemma modelEntries_ok (P : event -> bool) (i : nat)
  (models : list ModelDescriptor) :
  (forall n m, P (Log (ModelEntry n m)) = true) ->
  forallb (fun m => P (Log m)) (modelEntries i models) = true.
Proof.
  intros H. revert i. induction models as [|m r IH]; intros i; simpl.
  - reflexivity.
  - now rewrite H, IH.
Qed.

Ltac emits_step :=
  first
    [ apply emits_ret | apply emits_exit | apply emits_getConfig
    | apply emits_overrideModel
    | apply emits_emit; reflexivity
    | apply emits_logAll; reflexivity
    | apply emits_logAll; apply modelEntries_ok; reflexivity
    | apply emits_checkOllama; reflexivity
    | apply emits_getModels; reflexivity
    | apply emits_prompt; reflexivity
    | apply emits_loadConfig; reflexivity
    | apply emits_saveConfig; reflexivity
    | apply emits_executeCommand; reflexivity
    | intros ?; apply emits_selectLoop; reflexivity
    | apply emits_when
    | apply emits_tryCatch; [|intros ?]
    | apply emits_bind; [|intros ?] ].

Ltac emits_tac := unfold log; repeat emits_step.

(** The setup never calls the generation endpoint. *)
Lemma setup_notGenerate (w : World) : emits notGenerate (setup w).
Proof. unfold setup, selectModel. emits_tac. Qed.

Lemma resolveModel_notGenerate (w : World) :
  emits notGenerate (resolveModel w).
Proof.
  unfold resolveModel. destruct (parseOverride (argv w)) as [[m|] remaining];
    emits_tac.
Qed.

Lemma emits_generateCommand (P : event -> bool) (w : World)
  (userInput : jsstring) :
  (forall m q, P (FetchGenerate m q) = true) ->
  emits P (generateCommand w userInput).
Proof.
  intros H s. unfold generateCommand.
  destruct (readModel (config s)); simpl; [now rewrite H|reflexivity].
Qed.

Section KeepsFile.

Lemma keeps_ret {A} (a : A) : keepsFile (ret a).
Proof. intros s. reflexivity. Qed.

Lemma keeps_exit {A} (c : Z) : keepsFile (@exit A c).
Proof. intros s. reflexivity. Qed.

Lemma keeps_emit (e : event) : keepsFile (emit e).
Proof. intros s. reflexivity. Qed.

Lemma keeps_bind {A B} (m : M A) (f : A -> M B) :
  keepsFile m -> (forall a, keepsFile (f a)) -> keepsFile (bind m f).
Proof.
  intros Hm Hf s. unfold bind. specialize (Hm s).
  destruct (m s) as [t1 [a s1|msg s1|c s1|s1]]; simpl in *; auto.
  specialize (Hf a s1). destruct (f a s1) as [t2 r2]. simpl in *.
  congruence.
Qed.

Lemma keeps_when (b : bool) (m : M unit) : keepsFile m -> keepsFile (when b m).
Proof. destruct b; simpl; auto using keeps_ret. Qed.

Lemma keeps_logAll (ms : list message) : keepsFile (logAll ms).
Proof.
  induction ms as [|m ms IH]; simpl.
  - apply keeps_ret.
  - apply keeps_bind; [apply keeps_emit|auto].
Qed.

Lemma keeps_tryCatch {A} (m : M A) (h : jsstring -> M A) :
  keepsFile m -> (forall msg, keepsFile (h msg)) -> keepsFile (tryCatch m h).
Proof.
  intros Hm Hh s. unfold tryCatch. specialize (Hm s).
  destruct (m s) as [t1 [a s1|msg s1|c s1|s1]]; simpl in *; auto.
  specialize (Hh msg s1). destruct (h msg s1) as [t2 r2]. simpl in *.
  congruence.
Qed.

Lemma keeps_checkOllama (w : World) : keepsFile (checkOllama w).
Proof. intros s. reflexivity. Qed.

Lemma keeps_prompt (q : question) : keepsFile (prompt q).
Proof. intros s. simpl. destruct (stdin s); reflexivity. Qed.

Lemma keeps_generateCommand (w : World) (userInput : jsstring) :
  keepsFile (generateCommand w userInput).
Proof.
  intros s. unfold generateCommand.
  destruct (readModel (config s)) as [model|]; [|reflexivity].
  simpl. destruct (generation w model _); reflexivity.
Qed.

Lemma keeps_executeCommand (w : World) (command : jsstring) :
  keepsFile (executeCommand w command).
Proof.
  intros s. unfold executeCommand. simpl.
  destruct (child w command) as [code| |msg]; [destruct (N.eqb code 0)| |];
    reflexivity.
Qed.

End KeepsFile.

Ltac keeps_step :=
  first
    [ apply keeps_ret | apply keeps_exit | apply keeps_emit
    | apply keeps_logAll | apply keeps_checkOllama | apply keeps_prompt
    | apply keeps_generateCommand | apply keeps_executeCommand
    | apply keeps_when
    | apply keeps_tryCatch; [|intros ?]
    | apply keeps_bind; [|intros ?] ].

Ltac keeps_tac := unfold log; repeat keeps_step.

(** Lines 253-297, the run after the model is resolved. *)
Lemma session_notSetup (w : World) (remaining : list jsstring) :
  emits notSetup (session w remaining).
Proof.
  unfold session, gate, readInstruction, deliver, confirmStep.
  destruct remaining; emits_tac;
    try (apply emits_generateCommand; reflexivity);
    match goal with
    | |- emits _ (if ?b then _ else _) => destruct b; emits_tac
    end.
Qed.

Lemma session_keepsFile (w : World) (remaining : list jsstring) :
  keepsFile (session w remaining).
Proof.
  unfold session, gate, readInstruction, deliver, confirmStep.
  destruct remaining; keeps_tac;
    match goal with
    | |- keepsFile (if ?b then _ else _) => destruct b; keeps_tac
    end.
Qed.

(** With an override, lines 229-250 read the file and set the model: no
    setup, and the file is not written. *)
Lemma resolve_with_override (w : World) (m : jsstring)
  (remaining : list jsstring) (s : State) :
  parseOverride (argv w) = (Some m, remaining) ->
  exists s', resolveModel w s = ([ReadFile], Done remaining s')
             /\ file s' = file s.
Proof.
  intros H. unfold resolveModel. rewrite H.
  unfold bind, loadConfig, getConfig, overrideModel, ret.
  cbn. rewrite andb_false_r. cbn. eexists. split; reflexivity.
Qed.

(** ** The availability gate *)

(** C6: when the availability check of the gate fails, the process exits
    with code 1 after the two lines of the diagnostic, and no request to the
    generation endpoint is made in the whole run. *)
Theorem gate_failure_exits (w : World) (t : list event)
  (remaining : list jsstring) (s : State) :
  earlyFlag (argv w) = None ->
  resolveModel w (initial w) = (t, Done remaining s) ->
  snd (checkOllama w s) = Done false (probed s) ->
  exitCode (main w) = Some 1%Z
  /\ output (main w)
     = construct w ++ t ++ [FetchTags; Log (Fixed 254); Log (Fixed 255)]
  /\ forallb notGenerate (output (main w)) = true.
Proof.
  intros Hflag Hres Hprobe.
  assert (E : run w (initial w)
              = (t ++ [FetchTags; Log (Fixed 254); Log (Fixed 255)],
                 Exit 1%Z (probed s))).
  { unfold run. rewrite Hflag. unfold bind at 1. rewrite Hres.
    unfold session, gate, bind at 1 2. unfold checkOllama in *. simpl in Hprobe.
    injection Hprobe as Hp. rewrite Hp. reflexivity. }
  unfold main. rewrite E. cbn [exitCode output].
  split; [reflexivity|]. split; [reflexivity|].
  rewrite !forallb_app. apply andb_true_iff. split.
  - unfold construct. destruct (debugging w); reflexivity.
  - pose proof (resolveModel_notGenerate w (initial w)) as Ht.
    rewrite Hres in Ht. simpl in Ht. rewrite Ht. reflexivity.
Qed.

Lemma gate_failure_exits_witness :
  let w := {| argv := [js "list"; js "files"]; envDEBUG := None;
              platform := OtherPlatform;
              configFile := Some (stringify2 (preference (js "llama3")));
              diskError := None; tags := fun _ => TagsUnreachable;
              generation := fun _ _ => GenAnswer (js "ls");
              operator := [[]]; child := fun _ => ChildExit 0 |} in
  exitCode (main w) = Some 1%Z
  /\ output (main w)
     = construct w ++ [ReadFile]
       ++ [FetchTags; Log (Fixed 254); Log (Fixed 255)]
  /\ forallb notGenerate (output (main w)) = true.
Proof.
  intros w.
  apply (@gate_failure_exits w [ReadFile] [js "list"; js "files"]
           (withConfig (preference (js "llama3")) (initial w)));
    reflexivity.
Defined.

(** ** The model override *)

(** C7, as stated, fails: with the word -s among the words of the
    instruction the argument scan of lines 209-226 runs the setup, although
    an override and an instruction are supplied; the operator picks a model
    and the file is written. *)
Lemma override_with_setup_word :
  let w := servedWorld
             [js "-m"; js "mistral:7b"; js "what"; js "does"; js "ls";
              js "-s"; js "do"]
             None [{| name := js "llama3" |}] (js "ls -s") [js "1"; []] in
  parseOverride (argv w)
  = (Some (js "mistral:7b"),
     [js "what"; js "does"; js "ls"; js "-s"; js "do"])
  /\ configFile w = None
  /\ forallb notSetup (output (main w)) = false
  /\ finalFile (main w) = Some (stringify2 (preference (js "llama3"))).
Proof. repeat split. Qed.

(** C7, amended: when a model override is supplied together with an
    instruction, and the argument scan does not act on a setup flag (no
    setup flag among the arguments, unless a help or version flag comes
    before it), no event of the setup occurs, whether or not a preference
    file exists, and the preference file is at the end what it was at the
    start. *)
Theorem override_skips_setup (w : World) (m : jsstring)
  (remaining : list jsstring) :
  parseOverride (argv w) = (Some m, remaining) ->
  remaining <> [] ->
  earlyFlag (argv w) <> Some Setup ->
  forallb notSetup (output (main w)) = true
  /\ finalFile (main w) = configFile w.
Proof.
  intros Hover _ Hflag.
  assert (Hc : forallb notSetup (construct w) = true).
  { unfold construct. destruct (debugging w); reflexivity. }
  destruct (earlyFlag (argv w)) as [[| |]|] eqn:Eflag.
  - unfold main, run. rewrite Eflag. cbn.
    rewrite forallb_app, Hc. split; reflexivity.
  - unfold main, run. rewrite Eflag. cbn.
    rewrite forallb_app, Hc. split; reflexivity.
  - contradiction.
  - destruct (resolve_with_override w (initial w) Hover)
      as (s' & Hres & Hfile).
    pose proof (session_notSetup w remaining s') as Hev.
    pose proof (session_keepsFile w remaining s') as Hkeep.
    assert (E : run w (initial w)
                = (ReadFile :: fst (session w remaining s'),
                   snd (session w remaining s'))).
    { unfold run. rewrite Eflag. unfold bind. rewrite Hres.
      destruct (session w remaining s'); reflexivity. }
    unfold main. rewrite E.
    destruct (session w remaining s') as [t2 r2].
    simpl in Hev, Hkeep.
    destruct r2 as [a s2|msg s2|c s2|s2]; cbn [output finalFile fst snd];
      simpl in Hkeep; rewrite ?forallb_app, Hc; simpl;
      rewrite ?forallb_app, Hev;
      (split; [reflexivity|]); rewrite Hkeep, Hfile; reflexivity.
Qed.

Lemma override_skips_setup_witness :
  let w := servedWorld [js "-m"; js "mistral:7b"; js "list"; js "files"]
             None [{| name := js "llama3" |}] (js "ls -la") [[]] in
  forallb notSetup (output (main w)) = true
  /\ finalFile (main w) = None.
Proof.
  intros w.
  apply (@override_skips_setup w (js "mistral:7b") [js "list"; js "files"]).
  - reflexivity.
  - discriminate.
  - discriminate.
Defined.

(** ** The debug flag *)

(** C9: two runs that differ only in the DEBUG variable end with the same
    exit code and the same file, and write the same events, the run with
    the flag set writing the echo of the raw arguments first. *)
Theorem debug_only_echoes (w : World) (d : option jsstring) :
  exitCode (main (setDEBUG d w)) = exitCode (main (setDEBUG None w))
  /\ finalFile (main (setDEBUG d w)) = finalFile (main (setDEBUG None w))
  /\ output (main (setDEBUG d w))
     = (if debugging (setDEBUG d w) then [Log (RawArgs (argv w))] else [])
       ++ output (main (setDEBUG None w)).
Proof.
  assert (E : run (setDEBUG d w) (initial (setDEBUG d w))
              = run (setDEBUG None w) (initial (setDEBUG None w)))
    by reflexivity.
  unfold main. rewrite E.
  destruct (run (setDEBUG None w) (initial (setDEBUG None w)))
    as [t [a s|msg s|c s|s]];
    cbn [exitCode finalFile output]; repeat split.
Qed.

(** ** The preference file: text written and read back *)

Section Quote.

Local Open Scope N_scope.

Local Ltac Zify.zify_post_hook ::= Z.to_euclidean_division_equations.

Lemma hexVal_hexDigit (n : N) : n < 16 -> hexVal (hexDigit n) = Some n.
Proof.
  intros H. unfold hexVal, hexDigit, isDigit.
  destruct (N.ltb_spec n 10).
  - replace (N.leb 48 (48 + n)) with true by (symmetry; apply N.leb_le; lia).
    replace (N.leb (48 + n) 57) with true by (symmetry; apply N.leb_le; lia).
    cbn [andb]. f_equal. lia.
  - replace (N.leb (87 + n) 57) with false by (symmetry; apply N.leb_gt; lia).
    rewrite andb_false_r.
    replace (N.leb 97 (87 + n)) with true by (symmetry; apply N.leb_le; lia).
    replace (N.leb (87 + n) 102) with true by (symmetry; apply N.leb_le; lia).
    cbn [andb]. f_equal. lia.
Qed.

Lemma parseChars_unicodeEscape (c : N) (rest : jsstring) :
  c < 65536 ->
  parseChars (unicodeEscape c ++ rest) = consUnit c (parseChars rest).
Proof.
  intros H. unfold unicodeEscape. cbn [app parseChars N.eqb Pos.eqb].
  unfold hex4.
  rewrite !hexVal_hexDigit by (apply N.mod_upper_bound; discriminate).
  replace ((((c / 4096) mod 16 * 16 + (c / 256) mod 16) * 16
            + (c / 16) mod 16) * 16 + c mod 16) with c by lia.
  reflexivity.
Qed.

Lemma parseChars_literal (c : N) (rest : jsstring) :
  32 <= c -> c <> 34 -> c <> 92 ->
  parseChars (c :: rest) = consUnit c (parseChars rest).
Proof.
  intros H32 H34 H92. cbn [parseChars].
  rewrite (proj2 (N.eqb_neq c 34) H34), (proj2 (N.eqb_neq c 92) H92).
  now rewrite (proj2 (N.ltb_ge c 32) H32).
Qed.

Lemma parseChars_escapeUnit (c : N) (rest : jsstring) :
  parseChars (escapeUnit c ++ rest) = consUnit c (parseChars rest).
Proof.
  unfold escapeUnit.
  repeat match goal with
         | |- context [N.eqb c ?k] =>
             destruct (N.eqb_spec c k); [subst c; reflexivity|]
         end.
  destruct (N.ltb_spec c 32) as [Hlt|Hge]; cbn [orb].
  - apply parseChars_unicodeEscape. lia.
  - destruct (isHighSurrogate c) eqn:Hh; cbn [orb].
    + apply parseChars_unicodeEscape. unfold isHighSurrogate in Hh.
      apply andb_true_iff in Hh. destruct Hh as [_ Hh].
      apply N.leb_le in Hh. lia.
    + destruct (isLowSurrogate c) eqn:Hl.
      * apply parseChars_unicodeEscape. unfold isLowSurrogate in Hl.
        apply andb_true_iff in Hl. destruct Hl as [_ Hl].
        apply N.leb_le in Hl. lia.
      * now apply parseChars_literal.
Qed.

Lemma surrogate_literal (c : N) :
  (isHighSurrogate c || isLowSurrogate c)%bool = true ->
  32 <= c /\ c <> 34 /\ c <> 92.
Proof.
  unfold isHighSurrogate, isLowSurrogate.
  rewrite orb_true_iff, !andb_true_iff, !N.leb_le. lia.
Qed.

Lemma quoteUnits_cons2 (c d : N) (r : jsstring) :
  quoteUnits (c :: d :: r)
  = if (isHighSurrogate c && isLowSurrogate d)%bool
    then c :: d :: quoteUnits r
    else escapeUnit c ++ quoteUnits (d :: r).
Proof. reflexivity. Qed.

(** The parser reads back the string the serialiser quoted. *)
Lemma parseChars_quoteUnits (s rest : jsstring) :
  parseChars (quoteUnits s ++ 34 :: rest) = Some (s, rest).
Proof.
  remember (List.length s) as n eqn:Hn.
  assert (Hle : (List.length s <= n)%nat) by lia. clear Hn.
  revert s Hle. induction n as [|n IH]; intros s Hle.
  - destruct s; [reflexivity|simpl in Hle; lia].
  - destruct s as [|c [|d r]].
    + reflexivity.
    + cbn [quoteUnits]. rewrite parseChars_escapeUnit. reflexivity.
    + rewrite quoteUnits_cons2.
      destruct (isHighSurrogate c && isLowSurrogate d)%bool eqn:Hpair.
      * apply andb_true_iff in Hpair. destruct Hpair as [Hc Hd].
        destruct (@surrogate_literal c) as (c1 & c2 & c3);
          [now rewrite Hc|].
        destruct (@surrogate_literal d) as (d1 & d2 & d3);
          [now rewrite Hd, orb_true_r|].
        cbn [app]. rewrite parseChars_literal by assumption.
        rewrite parseChars_literal by assumption.
        rewrite IH by (simpl in Hle; lia). reflexivity.
      * rewrite <- app_assoc, parseChars_escapeUnit.
        rewrite IH by (simpl in *; lia). reflexivity.
Qed.

End Quote.

(** The text of a preference: the opening of the object and of the value,
    the quoted units, the closing quote, a line break and the brace. *)
Lemma stringify2_preference (model : jsstring) :
  stringify2 (preference model)
  = [123; 10; 32; 32; 34; 109; 111; 100; 101; 108; 34; 58; 32; 34]%N
    ++ quoteUnits model ++ [34; 10; 125]%N.
Proof.
  unfold stringify2, preference. cbn. now rewrite <- app_assoc.
Qed.

Lemma parseValue_object (n : nat) (rest : jsstring) :
  parseValue (S n) ([123; 10; 32; 32; 34]%N ++ rest)
  = parseMembers n (34%N :: rest) [].
Proof. reflexivity. Qed.

Lemma parseMembers_model (n : nat) (rest : jsstring) :
  parseMembers (S n) ([34; 109; 111; 100; 101; 108; 34; 58]%N ++ rest) []
  = match parseValue n rest with
    | None => None
    | Some (v, r3) =>
        match skipWs r3 with
        | [] => None
        | c3 :: r4 =>
            if N.eqb c3 44 then parseMembers n r4 [(modelKey, v)]
            else if N.eqb c3 125 then Some (JObj [(modelKey, v)], r4)
            else None
        end
    end.
Proof. reflexivity. Qed.

Lemma parseValue_string (n : nat) (rest : jsstring) :
  parseValue (S n) (32%N :: 34%N :: rest)
  = match parseChars rest with
    | Some (t, r) => Some (JStr t, r)
    | None => None
    end.
Proof. reflexivity. Qed.

Lemma parseValue_preference (n : nat) (model : jsstring) :
  parseValue (S (S (S n))) (stringify2 (preference model))
  = Some (preference model, []).
Proof.
  rewrite stringify2_preference.
  change ([123; 10; 32; 32; 34; 109; 111; 100; 101; 108; 34; 58; 32; 34]%N
          ++ quoteUnits model ++ [34; 10; 125]%N)
    with ([123; 10; 32; 32; 34]%N
          ++ [109; 111; 100; 101; 108; 34; 58]%N
          ++ 32%N :: 34%N :: quoteUnits model ++ 34%N :: [10; 125]%N).
  rewrite parseValue_object.
  change (34%N :: [109; 111; 100; 101; 108; 34; 58]%N
          ++ 32%N :: 34%N :: quoteUnits model ++ 34%N :: [10; 125]%N)
    with ([34; 109; 111; 100; 101; 108; 34; 58]%N
          ++ 32%N :: 34%N :: quoteUnits model ++ 34%N :: [10; 125]%N).
  rewrite parseMembers_model, parseValue_string, parseChars_quoteUnits.
  reflexivity.
Qed.

(** [JSON.parse] gives back the preference [JSON.stringify] wrote. *)
Lemma parse_stringify_preference (model : jsstring) :
  parse (stringify2 (preference model)) = Some (preference model).
Proof.
  unfold parse.
  assert (H : exists n, List.length (stringify2 (preference model))
                        = S (S n)).
  { rewrite stringify2_preference. cbn [app List.length]. eauto. }
  destruct H as [n ->]. rewrite parseValue_preference. reflexivity.
Qed.

(** *** The fuel of the parser is enough

    A parse that succeeds with some fuel succeeds, with the same result,
    with any fuel that is at least the number of units it consumes. *)

Lemma skipWs_length (s : jsstring) : List.length (skipWs s) <= List.length s.
Proof.
  induction s as [|c s IH]; simpl; [lia|].
  destruct (isWs c); simpl; lia.
Qed.

Lemma consUnit_some (u : N) (o : option (jsstring * jsstring))
  (t rest : jsstring) :
  consUnit u o = Some (t, rest) ->
  exists t', o = Some (t', rest) /\ t = u :: t'.
Proof.
  destruct o as [[t' rest']|]; simpl; intros H; [|discriminate].
  injection H as <- <-. eauto.
Qed.

Lemma parseChars_shorter (s t rest : jsstring) :
  parseChars s = Some (t, rest) -> List.length rest < List.length s.
Proof.
  remember (List.length s) as n eqn:Hn.
  assert (Hle : List.length s <= n) by lia. clear Hn.
  revert s t rest Hle. induction n as [|n IH]; intros s t rest Hle H.
  - destruct s; [discriminate|simpl in Hle; lia].
  - destruct s as [|c r]; [discriminate|].
    cbn [parseChars] in H. simpl in Hle.
    destruct (N.eqb c 34).
    { injection H as <- <-. simpl. lia. }
    destruct (N.eqb c 92).
    + destruct r as [|e r1]; [discriminate|]. simpl in Hle.
      destruct (N.eqb e 117).
      * destruct r1 as [|h1 [|h2 [|h3 [|h4 r2]]]]; try discriminate.
        destruct (hex4 h1 h2 h3 h4); [|discriminate].
        apply consUnit_some in H. destruct H as (t' & H & _).
        apply IH in H; simpl in *; lia.
      * destruct (simpleEscape e); [|discriminate].
        apply consUnit_some in H. destruct H as (t' & H & _).
        apply IH in H; simpl in *; lia.
    + destruct (N.ltb c 32); [discriminate|].
      apply consUnit_some in H. destruct H as (t' & H & _).
      apply IH in H; simpl in *; lia.
Qed.

Lemma digits_length (s ds rest : jsstring) :
  digits s = (ds, rest) -> List.length s = List.length ds + List.length rest.
Proof.
  revert ds rest. induction s as [|c s IH]; intros ds rest H; simpl in H.
  - injection H as <- <-. reflexivity.
  - destruct (isDigit c).
    + destruct (digits s) as [ds' rest'] eqn:E. injection H as <- <-.
      simpl. rewrite (IH _ _ eq_refl). reflexivity.
    + injection H as <- <-. reflexivity.
Qed.

Lemma lexInt_shorter (s l rest : jsstring) :
  lexInt s = Some (l, rest) -> List.length rest < List.length s.
Proof.
  destruct s as [|c r]; simpl; [discriminate|].
  destruct (N.eqb c 48).
  - intros H. injection H as <- <-. lia.
  - destruct (isDigit c); [|discriminate].
    destruct (digits r) as [ds rest'] eqn:E. intros H. injection H as <- <-.
    apply digits_length in E. lia.
Qed.

Lemma lexFrac_length (s l rest : jsstring) :
  lexFrac s = Some (l, rest) -> List.length rest <= List.length s.
Proof.
  destruct s as [|c r]; simpl.
  - intros H. injection H as <- <-. reflexivity.
  - destruct (N.eqb c 46).
    + destruct (digits r) as [[|d ds] rest'] eqn:E; [discriminate|].
      intros H. injection H as <- <-. apply digits_length in E. lia.
    + intros H. injection H as <- <-. reflexivity.
Qed.

Lemma lexExp_length (s l rest : jsstring) :
  lexExp s = Some (l, rest) -> List.length rest <= List.length s.
Proof.
  destruct s as [|c r]; simpl.
  - intros H. injection H as <- <-. reflexivity.
  - destruct (N.eqb c 101 || N.eqb c 69)%bool.
    + destruct (lexSign r) as [sg r1] eqn:Es.
      assert (List.length r1 <= List.length r).
      { unfold lexSign in Es. destruct r as [|x r']; [now injection Es as <- <-|].
        destruct (N.eqb x 43 || N.eqb x 45)%bool; injection Es as <- <-;
          simpl; lia. }
      destruct (digits r1) as [[|d ds] rest'] eqn:E; [discriminate|].
      intros H0. injection H0 as <- <-. apply digits_length in E. lia.
    + intros H. injection H as <- <-. reflexivity.
Qed.

Lemma lexNumber_shorter (s l rest : jsstring) :
  lexNumber s = Some (l, rest) -> List.length rest < List.length s.
Proof.
  unfold lexNumber. intros H.
  set (p := match s with
            | [] => ([], s)
            | c :: r => if N.eqb c 45 then ([c], r) else ([], s)
            end) in H.
  assert (Hp : List.length (snd p) <= List.length s).
  { subst p. destruct s as [|c r]; [reflexivity|].
    destruct (N.eqb c 45); simpl; lia. }
  destruct p as [minus s1]. simpl in Hp.
  destruct (lexInt s1) as [[i s2]|] eqn:Ei; [|discriminate].
  destruct (lexFrac s2) as [[f s3]|] eqn:Ef; [|discriminate].
  destruct (lexExp s3) as [[e s4]|] eqn:Ee; [|discriminate].
  injection H as <- <-.
  apply lexInt_shorter in Ei. apply lexFrac_length in Ef.
  apply lexExp_length in Ee. lia.
Qed.

Lemma stripPrefix_length (p s rest : jsstring) :
  stripPrefix p s = Some rest ->
  List.length s = List.length p + List.length rest.
Proof.
  revert s. induction p as [|a p IH]; intros s H; simpl in H.
  - now injection H as <-.
  - destruct s as [|b s']; [discriminate|].
    destruct (N.eqb a b); [|discriminate].
    simpl. now rewrite (IH _ H).
Qed.

Lemma keyword_shorter (p : jsstring) (v v' : json) (s rest : jsstring) :
  p <> [] -> keyword p v s = Some (v', rest) ->
  List.length rest < List.length s.
Proof.
  intros Hp. unfold keyword.
  destruct (stripPrefix p s) as [r|] eqn:E; [|discriminate].
  intros H. injection H as _ <-. apply stripPrefix_length in E.
  destruct p; [contradiction|]. simpl in E. lia.
Qed.

Lemma parse_fuelEnough (m : nat) :
  fuelEnough (fun n s (_ : unit) => parseValue n s) m
  /\ fuelEnough parseItems m
  /\ fuelEnough parseMembers m.
Proof.
  induction m as [|m (IHv & IHi & IHm)].
  - repeat split; discriminate.
  - split; [|split].
    + intros s [] v rest H. cbn [parseValue] in H.
      pose proof (skipWs_length s) as Hs.
      destruct (skipWs s) as [|c r] eqn:Es; [discriminate|]. simpl in Hs.
      destruct (N.eqb c 123) eqn:E123.
      { pose proof (skipWs_length r) as Hr.
        destruct (skipWs r) as [|c2 r2] eqn:Er; [discriminate|]. simpl in Hr.
        destruct (N.eqb c2 125) eqn:E125.
        - injection H as <- <-. split; [lia|]. intros [|n] Hn; [lia|].
          cbn [parseValue]. now rewrite Es, E123, Er, E125.
        - destruct (IHm _ _ _ _ H) as [Hlt Hf]. simpl in Hlt.
          split; [lia|]. intros [|n] Hn; [lia|].
          cbn [parseValue]. rewrite Es, E123, Er, E125.
          apply Hf. cbn [List.length]. lia. }
      destruct (N.eqb c 91) eqn:E91.
      { pose proof (skipWs_length r) as Hr.
        destruct (skipWs r) as [|c2 r2] eqn:Er; [discriminate|]. simpl in Hr.
        destruct (N.eqb c2 93) eqn:E93.
        - injection H as <- <-. split; [lia|]. intros [|n] Hn; [lia|].
          cbn [parseValue]. now rewrite Es, E123, E91, Er, E93.
        - destruct (IHi _ _ _ _ H) as [Hlt Hf]. simpl in Hlt.
          split; [lia|]. intros [|n] Hn; [lia|].
          cbn [parseValue]. rewrite Es, E123, E91, Er, E93.
          apply Hf. cbn [List.length]. lia. }
      assert (Hatom : List.length rest < List.length (c :: r) ->
                      List.length rest < List.length s) by (simpl; lia).
      assert (Hstep : forall n, List.length s - List.length rest <= n ->
                List.length rest < List.length s ->
                exists n', n = S n').
      { intros [|n] Hn Hlt; [lia|eauto]. }
      destruct (N.eqb c 34) eqn:E34.
      { destruct (parseChars r) as [[t rest']|] eqn:Ec; [|discriminate].
        injection H as <- <-. pose proof (parseChars_shorter _ Ec) as Hlt.
        split; [lia|]. intros [|n] Hn; [lia|].
        cbn [parseValue]. now rewrite Es, E123, E91, E34, Ec. }
      destruct (N.eqb c 116) eqn:E116.
      { assert (Hlt : List.length rest < List.length (c :: r))
          by (eapply keyword_shorter; [|exact H]; discriminate).
        split; [auto|]. intros n Hn.
        destruct (Hstep n Hn (Hatom Hlt)) as [n' ->].
        cbn [parseValue]. now rewrite Es, E123, E91, E34, E116. }
      destruct (N.eqb c 102) eqn:E102.
      { assert (Hlt : List.length rest < List.length (c :: r))
          by (eapply keyword_shorter; [|exact H]; discriminate).
        split; [auto|]. intros n Hn.
        destruct (Hstep n Hn (Hatom Hlt)) as [n' ->].
        cbn [parseValue]. now rewrite Es, E123, E91, E34, E116, E102. }
      destruct (N.eqb c 110) eqn:E110.
      { assert (Hlt : List.length rest < List.length (c :: r))
          by (eapply keyword_shorter; [|exact H]; discriminate).
        split; [auto|]. intros n Hn.
        destruct (Hstep n Hn (Hatom Hlt)) as [n' ->].
        cbn [parseValue]. now rewrite Es, E123, E91, E34, E116, E102, E110. }
      destruct (lexNumber (c :: r)) as [[l rest']|] eqn:El; [|discriminate].
      injection H as <- <-. pose proof (lexNumber_shorter _ El) as Hlt.
      split; [auto|]. intros n Hn.
      destruct (Hstep n Hn (Hatom Hlt)) as [n' ->].
      cbn [parseValue]. now rewrite Es, E123, E91, E34, E116, E102, E110, El.
    + intros s acc v rest H. cbn [parseItems] in H.
      destruct (parseValue m s) as [[v1 r]|] eqn:Ev; [|discriminate].
      destruct (IHv _ tt _ _ Ev) as [Hlt1 Hf1].
      pose proof (skipWs_length r) as Hr.
      destruct (skipWs r) as [|c r1] eqn:Er; [discriminate|]. simpl in Hr.
      destruct (N.eqb c 44) eqn:E44.
      * destruct (IHi _ _ _ _ H) as [Hlt2 Hf2].
        split; [lia|]. intros [|n] Hn; [lia|].
        cbn [parseItems]. rewrite (Hf1 n) by lia. rewrite Er, E44.
        apply Hf2. lia.
      * destruct (N.eqb c 93) eqn:E93; [|discriminate].
        injection H as <- <-.
        split; [lia|]. intros [|n] Hn; [lia|].
        cbn [parseItems]. rewrite (Hf1 n) by lia.
        now rewrite Er, E44, E93.
    + intros s acc v rest H. cbn [parseMembers] in H.
      pose proof (skipWs_length s) as Hs.
      destruct (skipWs s) as [|c r] eqn:Es; [discriminate|]. simpl in Hs.
      destruct (N.eqb c 34) eqn:E34; [|discriminate].
      destruct (parseChars r) as [[k r1]|] eqn:Ek; [|discriminate].
      pose proof (parseChars_shorter _ Ek) as Hk.
      pose proof (skipWs_length r1) as Hr1.
      destruct (skipWs r1) as [|c1 r2] eqn:Er1; [discriminate|]. simpl in Hr1.
      destruct (N.eqb c1 58) eqn:E58; [|discriminate].
      destruct (parseValue m r2) as [[v1 r3]|] eqn:Ev; [|discriminate].
      destruct (IHv _ tt _ _ Ev) as [Hlt1 Hf1].
      pose proof (skipWs_length r3) as Hr3.
      destruct (skipWs r3) as [|c3 r4] eqn:Er3; [discriminate|]. simpl in Hr3.
      destruct (N.eqb c3 44) eqn:E44.
      * destruct (IHm _ _ _ _ H) as [Hlt2 Hf2].
        split; [lia|]. intros [|n] Hn; [lia|].
        cbn [parseMembers]. rewrite Es, E34, Ek, Er1, E58.
        rewrite (Hf1 n) by lia. rewrite Er3, E44.
        apply Hf2. lia.
      * destruct (N.eqb c3 125) eqn:E125; [|discriminate].
        injection H as <- <-.
        split; [lia|]. intros [|n] Hn; [lia|].
        cbn [parseMembers]. rewrite Es, E34, Ek, Er1, E58.
        rewrite (Hf1 n) by lia. now rewrite Er3, E44, E125.
Qed.

(** The fuel [parse] gives is enough: a text that parses with any fuel at
    all parses with it. *)
Lemma parse_fuel_enough (m : nat) (text : jsstring) (v : json)
  (rest : jsstring) :
  parseValue m text = Some (v, rest) ->
  parseValue (S (List.length text)) text = Some (v, rest).
Proof.
  intros H. destruct (parse_fuelEnough m) as (Hv & _ & _).
  destruct (Hv text tt v rest H) as [_ Hf]. apply Hf. lia.
Qed.

(** *** The text written is well-formed UTF-16 *)








(** * Further properties of the code *)

(** ** The extraction never invents text *)

Lemma trimStart_split (s : jsstring) :
  exists a, s = a ++ trimStart s /\ forallb isWhiteSpace a = true.
Proof.
  induction s as [|c s (a & E & Ha)].
  - exists []. split; reflexivity.
  - simpl. destruct (isWhiteSpace c) eqn:Hc.
    + exists (c :: a). split; [simpl; congruence|simpl; now rewrite Hc].
    + exists []. split; reflexivity.
Qed.

Lemma trimStart_head (s : jsstring) (c : N) (r : jsstring) :
  trimStart s = c :: r -> isWhiteSpace c = false.
Proof.
  induction s as [|d s IH]; simpl; [discriminate|].
  destruct (isWhiteSpace d) eqn:Hd; [exact IH|].
  intros H. injection H as <- _. exact Hd.
Qed.

Lemma trimEnd_split (s : jsstring) :
  exists b, s = trimEnd s ++ b /\ forallb isWhiteSpace b = true.
Proof.
  unfold trimEnd. destruct (trimStart_split (rev s)) as (a & E & Ha).
  exists (rev a). split.
  - rewrite <- rev_app_distr, <- E. now rewrite rev_involutive.
  - rewrite forallb_forall in *. intros x Hx. apply Ha. now apply in_rev.
Qed.

Lemma trim_split (s : jsstring) :
  exists a b, s = a ++ trim s ++ b
              /\ forallb isWhiteSpace a = true
              /\ forallb isWhiteSpace b = true.
Proof.
  unfold trim. destruct (trimStart_split s) as (a & E & Ha).
  destruct (trimEnd_split (trimStart s)) as (b & E' & Hb).
  exists a, b. split; [|auto]. now rewrite <- E'.
Qed.

Lemma trim_edgesClean (s : jsstring) : edgesClean (trim s) = true.
Proof.
  unfold edgesClean, trim. apply andb_true_iff. split.
  - destruct (trimEnd_split (trimStart s)) as (b & E & Hb).
    destruct (trimEnd (trimStart s)) as [|c r] eqn:Et; [reflexivity|].
    destruct (trimStart s) as [|d t] eqn:Es; [discriminate|].
    simpl in E. injection E as -> _.
    now rewrite (trimStart_head _ Es).
  - unfold lastUnit, trimEnd. rewrite rev_involutive.
    destruct (trimStart (rev (trimStart s))) as [|c r] eqn:Et; [reflexivity|].
    now rewrite (trimStart_head _ Et).
Qed.

(** X1: whatever the response, the extracted command is a contiguous part
    of it: the extraction only cuts text away. *)
Theorem extract_is_part_of_response (raw : jsstring) :
  exists before after, raw = before ++ extractCommand raw ++ after.
Proof.
  destruct (tick_shapes raw)
    as [H|[(pre & post & E & Hp & Hq)|[(pre & post & E & Hp)
       |(pre & mid & post & E & Hp & Hm & Hne)]]].
  - rewrite (extract_noTick H).
    destruct (trim_split raw) as (a & b & E & _). now exists a, b.
  - exists [], []. rewrite E, (extract_lone_tick Hp Hq).
    now rewrite app_nil_r.
  - exists [], []. rewrite E, (extract_adjacent post Hp).
    now rewrite app_nil_r.
  - exists (pre ++ [tick]), (tick :: post).
    rewrite E at 2. rewrite (extract_first_span post Hp Hm Hne).
    rewrite E, <- app_assoc. reflexivity.
Qed.

(** X2: for a response with no backtick, the command has no white space at
    either end and what was cut away on both sides is white space only. *)
Theorem extract_plain_is_trimmed (raw : jsstring) :
  noTick raw ->
  edgesClean (extractCommand raw) = true
  /\ exists before after,
       raw = before ++ extractCommand raw ++ after
       /\ forallb isWhiteSpace before = true
       /\ forallb isWhiteSpace after = true.
Proof.
  intros H. rewrite (extract_noTick H). split.
  - apply trim_edgesClean.
  - apply trim_split.
Qed.

Lemma extract_plain_is_trimmed_witness :
  edgesClean (extractCommand (js "  ls -la  ")) = true
  /\ exists before after,
       js "  ls -la  " = before ++ extractCommand (js "  ls -la  ") ++ after
       /\ forallb isWhiteSpace before = true
       /\ forallb isWhiteSpace after = true.
Proof. apply (@extract_plain_is_trimmed (js "  ls -la  ")). reflexivity. Defined.

(** ** Choosing a model *)

Lemma pick_spec (models : list ModelDescriptor) (choice nm : jsstring) :
  pick models choice = Some nm
  <-> exists (n : Z) (m : ModelDescriptor),
        parseInt choice = Some n
        /\ (1 <= n <= Z.of_nat (List.length models))%Z
        /\ nth_error models (Z.to_nat (n - 1)) = Some m
        /\ name m = nm.
Proof.
  unfold pick. split.
  - destruct (parseInt choice) as [n|]; [|discriminate].
    destruct (Z.leb_spec 0 (n - 1)); [|discriminate].
    destruct (Z.ltb_spec (n - 1) (Z.of_nat (List.length models)));
      [|discriminate].
    cbn [andb]. destruct (nth_error models (Z.to_nat (n - 1))) as [m|] eqn:E;
      [|discriminate].
    intros Hnm. injection Hnm as <-. exists n, m. repeat split; auto; lia.
  - intros (n & m & -> & Hn & E & <-).
    destruct (Z.leb_spec 0 (n - 1)); [|lia].
    destruct (Z.ltb_spec (n - 1) (Z.of_nat (List.length models))); [|lia].
    cbn [andb]. now rewrite E.
Qed.

Lemma modelEntries_In (k : nat) (nm : jsstring) (i : nat)
  (models : list ModelDescriptor) :
  In (ModelEntry k nm) (modelEntries i models) ->
  exists m, i < k /\ nth_error models (k - i - 1) = Some m /\ name m = nm.
Proof.
  revert i. induction models as [|m r IH]; intros i H; [contradiction|].
  simpl in H. destruct H as [H|H].
  - injection H as <- <-. exists m. split; [lia|].
    replace (i + 1 - i - 1) with 0 by lia. split; reflexivity.
  - destruct (IH _ H) as (m' & Hk & E & Hn). exists m'.
    split; [lia|]. split; [|exact Hn].
    replace (k - i - 1) with (S (k - S i - 1)) by lia. exact E.
Qed.

(** X4: the number printed in front of a model in the list is the number
    that selects it. *)
Theorem listed_number_selects (models : list ModelDescriptor) (k : nat)
  (nm choice : jsstring) :
  In (ModelEntry k nm) (modelEntries 0 models) ->
  parseInt choice = Some (Z.of_nat k) ->
  pick models choice = Some nm.
Proof.
  intros Hin Hp. destruct (modelEntries_In _ _ _ _ Hin) as (m & Hk & E & Hn).
  assert (Hlen : k - 0 - 1 < List.length models).
  { apply nth_error_Some. congruence. }
  apply pick_spec. exists (Z.of_nat k), m. repeat split; auto; try lia.
  replace (Z.to_nat (Z.of_nat k - 1)) with (k - 0 - 1) by lia. exact E.
Qed.

Lemma listed_number_selects_witness :
  pick [{| name := js "llama3" |}; {| name := js "mistral:7b" |}] (js " 2")
  = Some (js "mistral:7b").
Proof.
  apply (@listed_number_selects
           [{| name := js "llama3" |}; {| name := js "mistral:7b" |}] 2
           (js "mistral:7b") (js " 2")).
  - simpl. right. left. reflexivity.
  - reflexivity.
Defined.

Lemma selectLoop_cases (models : list ModelDescriptor)
  (lines : list jsstring) (s : State) :
  (exists bad choice rest nm,
      lines = bad ++ choice :: rest
      /\ Forall (fun l => pick models l = None) bad
      /\ pick models choice = Some nm
      /\ selectLoop models lines s
         = (retries bad ++ [Question SelectNumber],
            Done nm (withStdin rest s)))
  \/ (Forall (fun l => pick models l = None) lines
      /\ selectLoop models lines s
         = (retries lines ++ [Question SelectNumber],
            Wait (withStdin [] s))).
Proof.
  induction lines as [|l lines IH].
  - right. split; [constructor|reflexivity].
  - cbn [selectLoop]. destruct (pick models l) as [nm|] eqn:Hp.
    + left. exists [], l, lines, nm. repeat split; auto.
    + destruct IH as [(bad & choice & rest & nm & -> & Hbad & Hc & E)|[Hall E]].
      * left. exists (l :: bad), choice, rest, nm. rewrite E.
        repeat split; auto.
      * right. rewrite E. split; [constructor; assumption|reflexivity].
Qed.

(** X5: the selection loop asks once per line: every line that selects
    nothing costs a question and a notice, the first line that selects a
    model ends the loop with that model and leaves the lines after it
    unread; when no line selects a model the loop waits at a question.  It
    never exits and never throws. *)
Theorem selectLoop_outcome (models : list ModelDescriptor)
  (lines : list jsstring) (s : State) :
  (exists bad choice rest nm,
      lines = bad ++ choice :: rest
      /\ Forall (fun l => pick models l = None) bad
      /\ pick models choice = Some nm
      /\ selectLoop models lines s
         = (retries bad ++ [Question SelectNumber],
            Done nm (withStdin rest s)))
  \/ (Forall (fun l => pick models l = None) lines
      /\ selectLoop models lines s
         = (retries lines ++ [Question SelectNumber],
            Wait (withStdin [] s))).
Proof.
  induction lines as [|l lines IH].
  - right. split; [constructor|reflexivity].
  - cbn [selectLoop]. destruct (pick models l) as [nm|] eqn:Hp.
    + left. exists [], l, lines, nm. repeat split; auto.
    + destruct IH as [(bad & choice & rest & nm & -> & Hbad & Hc & E)|[Hall E]].
      * left. exists (l :: bad), choice, rest, nm. rewrite E.
        repeat split; auto.
      * right. rewrite E. split; [constructor; assumption|reflexivity].
Qed.

(** ** The setup *)

Lemma logAll_run (ms : list message) (s : State) :
  logAll ms s = (List.map Log ms, Done tt s).
Proof.
  induction ms as [|m ms IH]; [reflexivity|].
  cbn [logAll]. unfold bind, log, emit. rewrite IH. reflexivity.
Qed.

Lemma selectModel_run (models : list ModelDescriptor) (s : State) :
  selectModel models s
  = (Log (Fixed 73) :: List.map Log (modelEntries 0 models)
       ++ fst (selectLoop models (stdin s) s),
     snd (selectLoop models (stdin s) s)).
Proof.
  unfold selectModel, bind, log, emit. rewrite logAll_run.
  destruct (selectLoop models (stdin s) s) as [t r]. reflexivity.
Qed.


Lemma bind_Done {A B} (m : M A) (f : A -> M B) (s s1 : State)
  (t : list event) (a : A) :
  m s = (t, Done a s1) ->
  bind m f s = (t ++ fst (f a s1), snd (f a s1)).
Proof.
  intros E. unfold bind. rewrite E. now destruct (f a s1).
Qed.

Lemma bind_Exit {A B} (m : M A) (f : A -> M B) (s s1 : State)
  (t : list event) (c : Z) :
  m s = (t, Exit c s1) -> bind m f s = (t, Exit c s1).
Proof. intros E. unfold bind. now rewrite E. Qed.

Lemma bind_Throw {A B} (m : M A) (f : A -> M B) (s s1 : State)
  (t : list event) (msg : jsstring) :
  m s = (t, Throw msg s1) -> bind m f s = (t, Throw msg s1).
Proof. intros E. unfold bind. now rewrite E. Qed.

Lemma bind_Wait {A B} (m : M A) (f : A -> M B) (s s1 : State)
  (t : list event) :
  m s = (t, Wait s1) -> bind m f s = (t, Wait s1).
Proof. intros E. unfold bind. now rewrite E. Qed.

Lemma checkOllama_run (w : World) (s : State) :
  checkOllama w s = ([FetchTags], Done (reachable w (probes s)) (probed s)).
Proof. reflexivity. Qed.

Lemma getModels_run (w : World) (s : State) :
  getModels w s = ([FetchTags], Done (offered w (probes s)) (probed s)).
Proof. reflexivity. Qed.

Lemma setup_run (w : World) (s : State) :
  setup w s
  = if reachable w (probes s) then
      match offered w (S (probes s)) with
      | [] =>
          ([Log (Fixed 90); FetchTags; FetchTags; Log (Fixed 103);
            Log (Fixed 104); Log (Fixed 105); Log (Fixed 106);
            Log (Fixed 107)],
           Exit 1 (probed (probed s)))
      | m0 :: ms =>
          let models := m0 :: ms in
          let (t, r) := selectLoop models (stdin s) (probed (probed s)) in
          match r with
          | Done nm s3 =>
              match diskError w with
              | Some msg =>
                  (setupHead models ++ t
                     ++ [WriteFile (stringify2 (preference nm))],
                   Throw msg s3)
              | None =>
                  (setupHead models ++ t
                     ++ [WriteFile (stringify2 (preference nm));
                         Log (SetupComplete nm); Log (Fixed 115);
                         Log (Fixed 116)],
                   Done tt (withConfig (preference nm)
                              (withFile (Some (stringify2 (preference nm)))
                                 s3)))
              end
          | Throw msg s3 => (setupHead models ++ t, Throw msg s3)
          | Exit c s3 => (setupHead models ++ t, Exit c s3)
          | Wait s3 => (setupHead models ++ t, Wait s3)
          end
      end
    else
      ([Log (Fixed 90); FetchTags; Log (Fixed 93); Log (Fixed 94);
        Log (Fixed 95); Log (Fixed 96); Log (Fixed 97)],
       Exit 1 (probed s)).
Proof.
  unfold setup.
  erewrite bind_Done by reflexivity.
  erewrite bind_Done by apply checkOllama_run.
  destruct (reachable w (probes s)); cbn [negb when].
  2:{ erewrite bind_Exit; [reflexivity|].
      erewrite bind_Done by apply logAll_run. reflexivity. }
  erewrite bind_Done by reflexivity.
  erewrite bind_Done by apply getModels_run.
  change (probes (probed s)) with (S (probes s)).
  destruct (offered w (S (probes s))) as [|m0 ms];
    cbn [List.length Nat.eqb when].
  { erewrite bind_Exit; [reflexivity|].
    erewrite bind_Done by apply logAll_run. reflexivity. }
  erewrite bind_Done by reflexivity.
  cbn [fst snd app].
  pose proof (selectModel_run (m0 :: ms) (probed (probed s))) as Esel.
  change (stdin (probed (probed s))) with (stdin s) in Esel.
  destruct (selectLoop (m0 :: ms) (stdin s) (probed (probed s)))
    as [t [nm s3|msg s3|c s3|s3]]; cbn [fst snd] in Esel.
  - erewrite bind_Done by exact Esel. cbn [fst snd].
    unfold saveConfig at 1 2. unfold bind at 1 2.
    destruct (diskError w) as [msg|]; cbn [fst snd].
    + unfold setupHead. cbn [app]. now rewrite <- !app_assoc.
    + rewrite logAll_run. unfold setupHead. cbn [app List.map fst snd].
      now rewrite <- !app_assoc.
  - erewrite bind_Throw by exact Esel. reflexivity.
  - erewrite bind_Exit by exact Esel. reflexivity.
  - erewrite bind_Wait by exact Esel. reflexivity.
Qed.

Lemma pick_offered (models : list ModelDescriptor) (choice nm : jsstring) :
  pick models choice = Some nm -> exists m, In m models /\ name m = nm.
Proof.
  intros H. apply pick_spec in H. destruct H as (n & m & _ & _ & E & Hn).
  exists m. split; [|exact Hn]. eapply nth_error_In. exact E.
Qed.

(** X6: when the service does not answer the first check, or lists no
    model, the setup ends the process with exit code 1 before any question
    is asked and without writing: file, configuration and the operator's
    lines are untouched. *)
Theorem setup_fatal_before_prompt (w : World) (s : State) :
  reachable w (probes s) = false \/ offered w (S (probes s)) = [] ->
  exists t s',
    setup w s = (t, Exit 1 s')
    /\ existsb isQuestion t = false /\ existsb isWrite t = false
    /\ file s' = file s /\ config s' = config s /\ stdin s' = stdin s.
Proof.
  intros H. rewrite setup_run.
  destruct (reachable w (probes s)).
  - destruct H as [H|H]; [discriminate|]. rewrite H.
    eexists _, _. repeat split.
  - eexists _, _. repeat split.
Qed.

Lemma setup_fatal_before_prompt_witness :
  let w := {| argv := [js "--setup"]; envDEBUG := None;
              platform := OtherPlatform; configFile := None;
              diskError := None;
              tags := fun _ => TagsAnswer true (Some []);
              generation := fun _ _ => GenAnswer (js "ls");
              operator := [js "1"]; child := fun _ => ChildExit 0 |} in
  exists t s',
    setup w (initial w) = (t, Exit 1 s')
    /\ existsb isQuestion t = false /\ existsb isWrite t = false
    /\ file s' = file (initial w) /\ config s' = config (initial w)
    /\ stdin s' = stdin (initial w).
Proof.
  intros w. apply (@setup_fatal_before_prompt w (initial w)).
  right. reflexivity.
Defined.

(** X7: a setup that completes has saved a model the service offered:
    [this.config] is the preference with the name of one of the listed
    models, the file holds its text, and that text parses back to the
    same preference. *)
Theorem setup_success_persists (w : World) (s s' : State) (t : list event) :
  setup w s = (t, Done tt s') ->
  exists m,
    In m (offered w (S (probes s)))
    /\ config s' = preference (name m)
    /\ file s' = Some (stringify2 (preference (name m)))
    /\ parse (stringify2 (preference (name m))) = Some (config s')
    /\ In (WriteFile (stringify2 (preference (name m)))) t.
Proof.
  rewrite setup_run.
  destruct (reachable w (probes s)); [|discriminate].
  destruct (offered w (S (probes s))) as [|m0 ms] eqn:Hoff; [discriminate|].
  cbv zeta.
  destruct (selectLoop_cases (m0 :: ms) (stdin s) (probed (probed s)))
    as [(bad & choice & rest & nm & Hs & Hbad & Hp & El)|[Hall El]];
    rewrite El; [|discriminate].
  destruct (diskError w); [discriminate|].
  intros H. injection H as <- <-.
  destruct (pick_offered _ _ Hp) as (m & Hin & <-).
  exists m. split; [exact Hin|]. split; [reflexivity|].
  split; [reflexivity|]. split; [apply parse_stringify_preference|].
  do 5 right. apply in_or_app. right. apply in_or_app. right.
  left. reflexivity.
Qed.

Lemma setup_success_persists_witness :
  let w := servedWorld [js "--setup"] None
             [{| name := js "llama3" |}; {| name := js "mistral:7b" |}]
             (js "ls") [js "0"; js "2"] in
  exists m,
    In m (offered w 1)
    /\ config (stateOf (snd (setup w (initial w)))) = preference (name m)
    /\ file (stateOf (snd (setup w (initial w))))
       = Some (stringify2 (preference (name m)))
    /\ parse (stringify2 (preference (name m)))
       = Some (config (stateOf (snd (setup w (initial w)))))
    /\ In (WriteFile (stringify2 (preference (name m))))
          (fst (setup w (initial w))).
Proof.
  intros w.
  apply (@setup_success_persists w (initial w)
           (stateOf (snd (setup w (initial w))))
           (fst (setup w (initial w)))).
  reflexivity.
Defined.

(** X8: while the service offers models, lines that select none never end
    the setup: each costs a question and a notice, and when the lines run
    out the setup waits at a question, nothing written and no exit. *)
Theorem setup_reprompts_forever (w : World) (s : State) :
  reachable w (probes s) = true ->
  offered w (S (probes s)) <> [] ->
  Forall (fun l => pick (offered w (S (probes s))) l = None) (stdin s) ->
  setup w s
  = (setupHead (offered w (S (probes s))) ++ retries (stdin s)
       ++ [Question SelectNumber],
     Wait (withStdin [] (probed (probed s)))).
Proof.
  intros Hr Hne Hall. rewrite setup_run, Hr.
  destruct (offered w (S (probes s))) as [|m0 ms]; [contradiction|].
  cbv zeta.
  destruct (selectLoop_cases (m0 :: ms) (stdin s) (probed (probed s)))
    as [(bad & choice & rest & nm & Hs & Hbad & Hp & El)|[_ El]].
  - rewrite Hs in Hall. apply Forall_app in Hall. destruct Hall as [_ Hall].
    inversion Hall; subst. congruence.
  - rewrite El. reflexivity.
Qed.

Lemma setup_reprompts_forever_witness :
  let w := servedWorld [js "--setup"] None [{| name := js "llama3" |}]
             (js "ls") [js "0"; js "two"; js "2"] in
  setup w (initial w)
  = (setupHead (offered w 1) ++ retries [js "0"; js "two"; js "2"]
       ++ [Question SelectNumber],
     Wait (withStdin [] (probed (probed (initial w))))).
Proof.
  intros w. apply (@setup_reprompts_forever w (initial w)).
  - reflexivity.
  - discriminate.
  - repeat constructor.
Defined.

(** ** The arguments *)

Lemma findIndex_split {A} (p : A -> bool) (l : list A) :
  match findIndex p l with
  | Some i =>
      exists pre x post,
        l = pre ++ x :: post /\ List.length pre = i /\ p x = true
        /\ forallb (fun a => negb (p a)) pre = true
  | None => forallb (fun a => negb (p a)) l = true
  end.
Proof.
  induction l as [|x l IH]; [reflexivity|].
  cbn [findIndex]. destruct (p x) eqn:Hx.
  - exists [], x, l. repeat split; auto.
  - destruct (findIndex p l) as [i|]; cbn [option_map].
    + destruct IH as (pre & y & post & -> & <- & Hy & Hpre).
      exists (x :: pre), y, post. repeat split; auto.
      cbn [forallb]. now rewrite Hx, Hpre.
    + cbn [forallb]. now rewrite Hx, IH.
Qed.

(** X9: the override is the argument after the first model flag, when
    there is one and it is not empty; the flag and its value are then taken
    out of the arguments and everything else stays, in order.  In every
    other case (no model flag, or the first one is last or followed by an
    empty argument) there is no override and the arguments stay as they
    are, the flag among them. *)
Theorem parseOverride_spec (args : list jsstring) :
  (exists pre flag value post,
      args = pre ++ flag :: value :: post
      /\ noModelFlag pre = true /\ isModelFlag flag = true
      /\ value <> []
      /\ parseOverride args = (Some value, pre ++ post))
  \/ (parseOverride args = (None, args)
      /\ (noModelFlag args = true
          \/ exists pre flag,
               noModelFlag pre = true /\ isModelFlag flag = true
               /\ (args = pre ++ [flag]
                   \/ exists post, args = pre ++ flag :: [] :: post))).
Proof.
  unfold parseOverride. pose proof (findIndex_split isModelFlag args) as H.
  destruct (findIndex isModelFlag args) as [i|].
  - destruct H as (pre & flag & post & -> & <- & Hf & Hpre).
    replace (nth_error (pre ++ flag :: post) (List.length pre + 1))
      with (nth_error post 0).
    2:{ rewrite nth_error_app2 by lia.
        replace (List.length pre + 1 - List.length pre) with 1 by lia.
        reflexivity. }
    destruct post as [|value post]; cbn [nth_error].
    + right. split; [reflexivity|]. right. exists pre, flag. auto.
    + destruct value as [|c value]; cbn [JS.truthy].
      * right. split; [reflexivity|]. right. exists pre, flag.
        split; [exact Hpre|]. split; [exact Hf|]. right. now exists post.
      * left. exists pre, flag, (c :: value), post.
        split; [reflexivity|]. split; [exact Hpre|]. split; [exact Hf|].
        split; [discriminate|]. f_equal. f_equal.
        -- rewrite firstn_app, firstn_all, Nat.sub_diag. cbn [firstn].
           now rewrite app_nil_r.
        -- rewrite skipn_app.
           replace (List.length pre + 2 - List.length pre) with 2 by lia.
           rewrite skipn_all2 by lia. reflexivity.
  - right. split; [reflexivity|]. left. exact H.
Qed.

Lemma earlyFlag_app (pre post : list jsstring) :
  forallb (fun a => negb (isEarlyFlag a)) pre = true ->
  earlyFlag (pre ++ post) = earlyFlag post.
Proof.
  induction pre as [|a pre IH]; [reflexivity|].
  cbn [forallb]. intros H. apply andb_true_iff in H. destruct H as [Ha Hpre].
  unfold isEarlyFlag in Ha. cbn [earlyFlag] in Ha. cbn [app earlyFlag].
  destruct (JS.eqb a (js "--help") || JS.eqb a (js "-h"))%bool;
    [discriminate|].
  destruct (JS.eqb a (js "--version") || JS.eqb a (js "-v"))%bool;
    [discriminate|].
  destruct (JS.eqb a (js "--setup") || JS.eqb a (js "-s"))%bool;
    [discriminate|].
  auto.
Qed.

Lemma earlyFlag_In (args : list jsstring) (a : jsstring) :
  In a args -> isEarlyFlag a = true -> earlyFlag args <> None.
Proof.
  induction args as [|b args IH]; [contradiction|].
  intros [->|Hin] Ha.
  - unfold isEarlyFlag in Ha. cbn [earlyFlag] in *.
    destruct (JS.eqb a (js "--help") || JS.eqb a (js "-h"))%bool;
      [discriminate|].
    destruct (JS.eqb a (js "--version") || JS.eqb a (js "-v"))%bool;
      [discriminate|].
    destruct (JS.eqb a (js "--setup") || JS.eqb a (js "-s"))%bool;
      [discriminate|discriminate].
  - cbn [earlyFlag].
    destruct (JS.eqb b (js "--help") || JS.eqb b (js "-h"))%bool;
      [discriminate|].
    destruct (JS.eqb b (js "--version") || JS.eqb b (js "-v"))%bool;
      [discriminate|].
    destruct (JS.eqb b (js "--setup") || JS.eqb b (js "-s"))%bool;
      [discriminate|auto].
Qed.

Lemma setup_notSession (w : World) : emits notSession (setup w).
Proof. unfold setup, selectModel. emits_tac. Qed.

Lemma showHelp_notSession : emits notSession showHelp.
Proof. unfold showHelp. emits_tac. Qed.

Lemma construct_notSession (w : World) :
  forallb notSession (construct w) = true.
Proof. unfold construct. destruct (debugging w); reflexivity. Qed.

(** X10: when any argument, wherever it stands and whatever surrounds it,
    is one of the help, version and setup flags, the run asks for no
    instruction, makes no request to the generation endpoint, asks for no
    confirmation and executes nothing. *)
Theorem flag_word_stops_session (w : World) (a : jsstring) :
  In a (argv w) ->
  isEarlyFlag a = true ->
  forallb notSession (output (main w)) = true.
Proof.
  intros Hin Ha. pose proof (earlyFlag_In _ _ Hin Ha) as Hflag.
  assert (Hrun : forallb notSession (fst (run w (initial w))) = true).
  { unfold run. destruct (earlyFlag (argv w)) as [[| |]|]; [| | |contradiction].
    - apply showHelp_notSession.
    - reflexivity.
    - apply setup_notSession. }
  unfold main. destruct (run w (initial w)) as [t [u s|msg s|c s|s]];
    cbn [output]; simpl in Hrun;
    rewrite ?forallb_app, construct_notSession, Hrun; reflexivity.
Qed.

Lemma flag_word_stops_session_witness :
  forallb notSession
    (output (main (servedWorld
                     [js "-m"; js "mistral:7b"; js "what"; js "does";
                      js "ls"; js "-s"; js "do"]
                     None [{| name := js "llama3" |}] (js "ls -s")
                     [js "1"; []])))
  = true.
Proof.
  apply (@flag_word_stops_session
           (servedWorld
              [js "-m"; js "mistral:7b"; js "what"; js "does";
               js "ls"; js "-s"; js "do"]
              None [{| name := js "llama3" |}] (js "ls -s") [js "1"; []])
           (js "-s")).
  - simpl. do 5 right. left. reflexivity.
  - reflexivity.
Defined.

(** X11: when the first flag in argument order is a help or version flag,
    the process prints and ends with exit code 0: the file is neither read
    nor written, no request is made, no question asked, nothing executed,
    also when a setup flag or a model flag follows. *)
Theorem help_version_print_only (w : World) (pre post : list jsstring)
  (a : jsstring) :
  argv w = pre ++ a :: post ->
  forallb (fun x => negb (isEarlyFlag x)) pre = true ->
  earlyFlag [a] = Some Help \/ earlyFlag [a] = Some Version ->
  exitCode (main w) = Some 0%Z
  /\ finalFile (main w) = configFile w
  /\ forallb isLog (output (main w)) = true.
Proof.
  intros Hargs Hpre Ha.
  assert (Hc : forallb isLog (construct w) = true).
  { unfold construct. destruct (debugging w); reflexivity. }
  assert (Hflag : earlyFlag (argv w) = Some Help
                  \/ earlyFlag (argv w) = Some Version).
  { rewrite Hargs, (earlyFlag_app _ _ Hpre).
    cbn [earlyFlag] in *.
    destruct (JS.eqb a (js "--help") || JS.eqb a (js "-h"))%bool; [now left|].
    destruct (JS.eqb a (js "--version") || JS.eqb a (js "-v"))%bool;
      [now right|].
    destruct (JS.eqb a (js "--setup") || JS.eqb a (js "-s"))%bool;
      destruct Ha; discriminate. }
  unfold main, run. destruct Hflag as [-> | ->]; cbn;
    rewrite forallb_app, Hc; repeat split.
Qed.

Lemma help_version_print_only_witness :
  let w := servedWorld [js "list"; js "-v"; js "--setup"] None [] (js "ls")
             [] in
  exitCode (main w) = Some 0%Z
  /\ finalFile (main w) = configFile w
  /\ forallb isLog (output (main w)) = true.
Proof.
  intros w.
  apply (@help_version_print_only w [js "list"] [js "--setup"] (js "-v")).
  - reflexivity.
  - reflexivity.
  - right. reflexivity.
Defined.

(** ** How a run ends *)

Section Tidy.

Lemma tidy_ret {A} (a : A) : tidy (ret a).
Proof. intros s t r H. injection H as <- <-. exact I. Qed.

Lemma tidy_exit1 {A} : tidy (@exit A 1).
Proof. intros s t r H. injection H as <- <-. reflexivity. Qed.

Lemma tidy_emit (e : event) : tidy (emit e).
Proof. intros s t r H. injection H as <- <-. exact I. Qed.

Lemma tidy_bind {A B} (m : M A) (f : A -> M B) :
  tidy m -> (forall a, tidy (f a)) -> tidy (bind m f).
Proof.
  intros Hm Hf s t r H. unfold bind in H.
  destruct (m s) as [t1 r1] eqn:Em. specialize (Hm s t1 r1 Em).
  destruct r1 as [a s1|msg s1|c s1|s1].
  - destruct (f a s1) as [t2 r2] eqn:Ef. injection H as <- <-.
    specialize (Hf a s1 t2 r2 Ef).
    destruct r2 as [b s2|msg s2|c s2|s2]; auto.
    destruct Hf as (t' & q & ->). exists (t1 ++ t'), q.
    now rewrite app_assoc.
  - injection H as <- <-. exact I.
  - injection H as <- <-. exact Hm.
  - injection H as <- <-. exact Hm.
Qed.

Lemma tidy_when (b : bool) (m : M unit) : tidy m -> tidy (when b m).
Proof. destruct b; simpl; auto using tidy_ret. Qed.

Lemma tidy_logAll (ms : list message) : tidy (logAll ms).
Proof. intros s t r H. rewrite logAll_run in H. injection H as <- <-. exact I. Qed.

Lemma tidy_tryCatch {A} (m : M A) (h : jsstring -> M A) :
  tidy m -> (forall msg, tidy (h msg)) -> tidy (tryCatch m h).
Proof.
  intros Hm Hh s t r H. unfold tryCatch in H.
  destruct (m s) as [t1 r1] eqn:Em. specialize (Hm s t1 r1 Em).
  destruct r1 as [a s1|msg s1|c s1|s1]; try (injection H as <- <-; auto).
  destruct (h msg s1) as [t2 r2] eqn:Eh. injection H as <- <-.
  specialize (Hh msg s1 t2 r2 Eh).
  destruct r2 as [b s2|msg2 s2|c s2|s2]; auto.
  destruct Hh as (t' & q & ->). exists (t1 ++ t'), q. now rewrite app_assoc.
Qed.

Lemma tidy_prompt (q : question) : tidy (prompt q).
Proof.
  intros s t r H. unfold prompt in H. injection H as <- <-.
  destruct (stdin s); [|exact I]. now exists [], q.
Qed.

Lemma tidy_done {A} (m : M A) :
  (forall s, exists t a s', m s = (t, Done a s')) -> tidy m.
Proof.
  intros Hm s t r H. destruct (Hm s) as (t' & a & s' & E).
  rewrite E in H. injection H as <- <-. exact I.
Qed.

Lemma tidy_generateCommand (w : World) (u : jsstring) :
  tidy (generateCommand w u).
Proof.
  intros s t r H. unfold generateCommand in H.
  destruct (readModel (config s)).
  - injection H as <- <-. now destruct (generation w o _).
  - injection H as <- <-. exact I.
Qed.

Lemma tidy_executeCommand (w : World) (c : jsstring) :
  tidy (executeCommand w c).
Proof.
  intros s t r H. unfold executeCommand in H. injection H as <- <-.
  destruct (child w c) as [code| |msg]; [destruct (N.eqb code 0)| |]; exact I.
Qed.

Lemma tidy_saveConfig (w : World) (c : json) : tidy (saveConfig w c).
Proof.
  intros s t r H. unfold saveConfig in H. injection H as <- <-.
  now destruct (diskError w).
Qed.

Lemma tidy_selectLoop (models : list ModelDescriptor) :
  tidy (fun s => selectLoop models (stdin s) s).
Proof.
  intros s t r H.
  destruct (selectLoop_cases models (stdin s) s)
    as [(bad & choice & rest & nm & _ & _ & _ & E)|[_ E]];
    rewrite E in H; injection H as <- <-; [exact I|].
  now exists (retries (stdin s)), SelectNumber.
Qed.

End Tidy.

Ltac tidy_step :=
  first
    [ apply tidy_ret | apply tidy_exit1 | apply tidy_emit
    | apply tidy_logAll | apply tidy_prompt
    | apply tidy_generateCommand | apply tidy_executeCommand
    | apply tidy_saveConfig | apply tidy_selectLoop
    | apply tidy_done; intros ?; eexists _, _, _; reflexivity
    | apply tidy_when
    | apply tidy_tryCatch; [|intros ?]
    | apply tidy_bind; [|intros ?] ].

Ltac tidy_tac := unfold log; repeat tidy_step.

Lemma setup_tidy (w : World) : tidy (setup w).
Proof. unfold setup, selectModel. tidy_tac. Qed.

Lemma run_tidy (w : World) : tidy (run w).
Proof.
  unfold run. destruct (earlyFlag (argv w)) as [[| |]|].
  - unfold showHelp. tidy_tac.
  - tidy_tac.
  - apply setup_tidy.
  - unfold resolveModel, session, gate, readInstruction, deliver,
      confirmStep, reportAndExit.
    destruct (parseOverride (argv w)) as [[m|] remaining]; tidy_tac;
      try apply setup_tidy;
      repeat match goal with
             | |- tidy (match ?x with _ => _ end) => destruct x; tidy_tac
             end.
Qed.

(** X12: whenever the process ends, its exit code is 0 or 1: every path of
    the program that ends the process does so with one of the two.  (A
    process that has not ended, because it waits for the operator, for the
    service or for the child, has no exit code to speak of.) *)
Theorem exit_codes (w : World) (c : Z) :
  exitCode (main w) = Some c -> c = 0%Z \/ c = 1%Z.
Proof.
  pose proof (run_tidy w (initial w)) as H. unfold main.
  destruct (run w (initial w)) as [t [u s|msg s|c' s|s]];
    specialize (H _ _ eq_refl); cbn [exitCode]; intros E.
  - injection E as <-. now left.
  - injection E as <-. now right.
  - injection E as <-. now right.
  - discriminate.
Qed.

Lemma exit_codes_witness :
  let w := servedWorld [js "list"; js "files"]
             (Some (stringify2 (preference (js "llama3")))) []
             (js "null") [] in
  exitCode (main w) = Some 1%Z /\ (1 = 0 \/ 1 = 1)%Z.
Proof.
  intros w. split; [reflexivity|].
  apply (@exit_codes w 1%Z). reflexivity.
Defined.

(** ** Nothing runs unconfirmed *)

Lemma confirmed_prepend (a t : list event) :
  forallb notSpawn a = true -> confirmedSpawn t -> confirmedSpawn (a ++ t).
Proof.
  intros Ha [Ht|(before & c & after & -> & Hb & Hf)].
  - left. now rewrite forallb_app, Ha, Ht.
  - right. exists (a ++ before), c, after. rewrite <- app_assoc.
    repeat split; auto. now rewrite forallb_app, Ha, Hb.
Qed.

Lemma confirmed_append (t e : list event) :
  confirmedSpawn t -> forallb notSpawn e = true -> confirmedSpawn (t ++ e).
Proof.
  intros [Ht|(before & c & after & -> & Hb & Hf)] He.
  - left. now rewrite forallb_app, Ht, He.
  - right. exists before, c, (after ++ e). rewrite <- !app_assoc.
    repeat split; auto. now rewrite forallb_app, Hf, He.
Qed.

Lemma guarded_emits {A} (m : M A) : emits notSpawn m -> guarded m.
Proof. intros H s. left. apply H. Qed.

Lemma guarded_bind {A B} (m : M A) (f : A -> M B) :
  emits notSpawn m -> (forall a, guarded (f a)) -> guarded (bind m f).
Proof.
  intros Hm Hf s. unfold bind. specialize (Hm s).
  destruct (m s) as [t1 [a s1|msg s1|c s1|s1]]; cbn [fst] in *;
    try (now left).
  specialize (Hf a s1). destruct (f a s1) as [t2 r2]. cbn [fst] in *.
  now apply confirmed_prepend.
Qed.

Lemma guarded_tryCatch {A} (m : M A) (h : jsstring -> M A) :
  guarded m -> (forall msg, emits notSpawn (h msg)) -> guarded (tryCatch m h).
Proof.
  intros Hm Hh s. unfold tryCatch. specialize (Hm s).
  destruct (m s) as [t1 [a s1|msg s1|c s1|s1]]; cbn [fst] in *; auto.
  specialize (Hh msg s1). destruct (h msg s1) as [t2 r2]. cbn [fst] in *.
  now apply confirmed_append.
Qed.

Lemma guarded_confirmStep (w : World) (command : jsstring) :
  guarded (confirmStep w command).
Proof.
  intros s. unfold confirmStep, bind, log, emit, prompt, executeCommand.
  destruct (stdin s) as [|line rest]; [now left|].
  destruct (JS.eqb line []); [|now left].
  right. exists [], command, []. cbn.
  destruct (child w command) as [code| |msg]; [destruct (N.eqb code 0)| |];
    repeat split.
Qed.

Lemma session_guarded (w : World) (remaining : list jsstring) :
  guarded (session w remaining).
Proof.
  unfold session, gate, readInstruction, deliver, reportAndExit.
  apply guarded_bind; [emits_tac|intros _].
  apply guarded_bind; [destruct remaining; emits_tac|intros u].
  apply guarded_bind; [emits_tac|intros _].
  apply guarded_tryCatch; [|intros msg; emits_tac].
  apply guarded_bind; [apply emits_generateCommand; reflexivity|intros c].
  apply guarded_bind; [emits_tac|intros _].
  apply guarded_confirmStep.
Qed.

Lemma setup_notSpawn (w : World) : emits notSpawn (setup w).
Proof. unfold setup, selectModel. emits_tac. Qed.

Lemma resolveModel_notSpawn (w : World) : emits notSpawn (resolveModel w).
Proof.
  unfold resolveModel. destruct (parseOverride (argv w)) as [[m|] remaining];
    emits_tac; apply setup_notSpawn.
Qed.

(** X13: in every run at most one command is spawned, and a spawn comes
    straight after the display of that same command, the hint line, the
    confirmation question and the notice that the command runs: nothing
    is executed that was not shown and put to the operator. *)
Theorem spawn_only_after_confirmation (w : World) :
  confirmedSpawn (output (main w)).
Proof.
  assert (Hc : forallb notSpawn (construct w) = true).
  { unfold construct. destruct (debugging w); reflexivity. }
  assert (Hrun : guarded (run w)).
  { unfold run. destruct (earlyFlag (argv w)) as [[| |]|].
    - apply guarded_emits. unfold showHelp. emits_tac.
    - apply guarded_emits. emits_tac.
    - apply guarded_emits, setup_notSpawn.
    - apply guarded_bind; [apply resolveModel_notSpawn|].
      intros remaining. apply session_guarded. }
  specialize (Hrun (initial w)). unfold main.
  destruct (run w (initial w)) as [t [u s|msg s|c s|s]];
    cbn [output fst] in *; try (now apply confirmed_prepend).
  apply confirmed_prepend; [exact Hc|]. now apply confirmed_append.
Qed.

(** ** What is sent to the generation endpoint *)

Lemma gate_run (w : World) (s : State) :
  gate w s
  = if reachable w (probes s) then ([FetchTags], Done tt (probed s))
    else ([FetchTags; Log (Fixed 254); Log (Fixed 255)], Exit 1 (probed s)).
Proof.
  unfold gate. erewrite bind_Done by apply checkOllama_run.
  destruct (reachable w (probes s)); reflexivity.
Qed.

Lemma readInstruction_run (remaining : list jsstring) (s : State) :
  readInstruction remaining s
  = match remaining with
    | [] =>
        match stdin s with
        | [] => ([Question EnterCommand], Wait s)
        | l :: rest =>
            if JS.truthy (trim l)
            then ([Question EnterCommand], Done l (withStdin rest s))
            else ([Question EnterCommand; Log (Fixed 268)],
                  Exit 1 (withStdin rest s))
        end
    | _ :: _ =>
        if JS.truthy (trim (join (js " ") remaining))
        then ([], Done (join (js " ") remaining) s)
        else ([Log (Fixed 268)], Exit 1 s)
    end.
Proof.
  unfold readInstruction, bind, prompt, log, emit.
  destruct remaining as [|a r].
  - destruct (stdin s) as [|l rest]; [reflexivity|].
    destruct (JS.truthy (trim l)); reflexivity.
  - cbn [ret]. destruct (JS.truthy (trim (join (js " ") (a :: r))));
      reflexivity.
Qed.

Lemma deliver_notGenerate_tail (w : World) (command : jsstring) :
  emits notGenerate
    (when (refused command) (log (Fixed 279) ;; exit 1) ;;
     confirmStep w command).
Proof.
  unfold confirmStep. emits_tac.
  match goal with
  | |- emits _ (if ?b then _ else _) => destruct b; emits_tac
  end.
Qed.

Lemma notGenerate_In (t : list event) (mo : option json) (p : jsstring) :
  forallb notGenerate t = true -> ~ In (FetchGenerate mo p) t.
Proof.
  intros H Hin. rewrite forallb_forall in H. specialize (H _ Hin).
  discriminate.
Qed.

Lemma tryCatch_run {A} (m : M A) (h : jsstring -> M A) (s : State) :
  tryCatch m h s
  = match snd (m s) with
    | Throw msg s1 => (fst (m s) ++ fst (h msg s1), snd (h msg s1))
    | _ => m s
    end.
Proof.
  unfold tryCatch. destruct (m s) as [t1 [a s1|msg s1|c s1|s1]];
    try reflexivity.
  cbn [fst snd]. now destruct (h msg s1).
Qed.

Lemma generateCommand_run (w : World) (u : jsstring) (s : State) :
  generateCommand w u s
  = match readModel (config s) with
    | None =>
        ([], Throw (generationError
                      (js "Cannot read properties of null (reading 'model')"))
               s)
    | Some model =>
        ([FetchGenerate model (buildPrompt (platform w) u)],
         match generation w model (buildPrompt (platform w) u) with
         | GenRejected msg => Throw (generationError msg) s
         | GenStatus statusText =>
             Throw (generationError (js "Ollama API error: " ++ statusText)) s
         | GenAnswer response => Done (extractCommand response) s
         end)
    end.
Proof. reflexivity. Qed.

Lemma deliver_generate (w : World) (u : jsstring) (s : State)
  (mo : option json) (p : jsstring) :
  In (FetchGenerate mo p) (fst (deliver w u s)) ->
  readModel (config s) = Some mo /\ p = buildPrompt (platform w) u.
Proof.
  unfold deliver. rewrite tryCatch_run.
  pose proof (generateCommand_run w u s) as Eg.
  destruct (readModel (config s)) as [model|].
  2:{ erewrite bind_Throw by exact Eg. cbn.
      intros [H|[]]. discriminate. }
  destruct (generation w model (buildPrompt (platform w) u))
    as [msg|st|response].
  - erewrite bind_Throw by exact Eg. cbn.
    intros [H|[H|[]]]; [|discriminate]. injection H as <- <-. auto.
  - erewrite bind_Throw by exact Eg. cbn.
    intros [H|[H|[]]]; [|discriminate]. injection H as <- <-. auto.
  - erewrite bind_Done by exact Eg.
    pose proof (deliver_notGenerate_tail w (extractCommand response) s) as Ht.
    destruct ((when (refused (extractCommand response))
                 (log (Fixed 279) ;; exit 1) ;;
               confirmStep w (extractCommand response)) s)
      as [t2 r2]. cbn [fst snd app] in *.
    assert (Hhead : In (FetchGenerate mo p)
                      (FetchGenerate model (buildPrompt (platform w) u) :: t2)
                    -> Some model = Some mo
                       /\ p = buildPrompt (platform w) u).
    { intros [H|H]; [injection H as <- <-; auto|].
      now apply notGenerate_In in H. }
    destruct r2 as [a s2|msg s2|c s2|s2]; cbn [fst snd]; auto.
    cbn. intros [H|H]; [injection H as <- <-; auto|].
    apply in_app_or in H. destruct H as [H|[H|[]]]; [|discriminate].
    now apply notGenerate_In in H.
Qed.

(** From the gate on: a request carries the model of the configuration the
    session started with, and the prompt of an instruction that is not
    blank, the remaining arguments joined by spaces when there are any. *)
Lemma session_generate (w : World) (remaining : list jsstring) (s : State)
  (mo : option json) (p : jsstring) :
  In (FetchGenerate mo p) (fst (session w remaining s)) ->
  readModel (config s) = Some mo
  /\ exists u,
       p = buildPrompt (platform w) u
       /\ JS.truthy (trim u) = true
       /\ (remaining <> [] -> u = join (js " ") remaining).
Proof.
  unfold session. unfold bind at 1. rewrite gate_run.
  destruct (reachable w (probes s)).
  2:{ cbn. intuition discriminate. }
  unfold bind at 1. rewrite readInstruction_run.
  change (stdin (probed s)) with (stdin s).
  assert (Hd : forall u s1 pre,
             forallb notGenerate pre = true ->
             config s1 = config s ->
             JS.truthy (trim u) = true ->
             (remaining <> [] -> u = join (js " ") remaining) ->
             In (FetchGenerate mo p)
                (pre ++ fst ((log (Fixed 273) ;; deliver w u) s1)) ->
             readModel (config s) = Some mo
             /\ exists u0,
                  p = buildPrompt (platform w) u0
                  /\ JS.truthy (trim u0) = true
                  /\ (remaining <> [] -> u0 = join (js " ") remaining)).
  { intros u s1 pre Hpre Hcfg Hu Hrem Hin.
    apply in_app_or in Hin. destruct Hin as [Hin|Hin];
      [now apply notGenerate_In in Hin|].
    erewrite bind_Done in Hin by reflexivity. cbn [fst app] in Hin.
    destruct Hin as [Hin|Hin]; [discriminate|].
    apply deliver_generate in Hin. destruct Hin as [Hm ->].
    rewrite Hcfg in Hm. split; [exact Hm|]. now exists u. }
  destruct remaining as [|a r].
  - destruct (stdin s) as [|l rest].
    + cbn. intuition discriminate.
    + destruct (JS.truthy (trim l)) eqn:Hl.
      * destruct ((log (Fixed 273) ;; deliver w l) (withStdin rest (probed s)))
          as [t2 r2] eqn:E.
        intros Hin. apply (Hd l (withStdin rest (probed s))
                             [FetchTags; Question EnterCommand]);
          auto; [congruence|]. rewrite E. exact Hin.
      * cbn. intuition discriminate.
  - destruct (JS.truthy (trim (join (js " ") (a :: r)))) eqn:Hl.
    + destruct ((log (Fixed 273) ;; deliver w (join (js " ") (a :: r)))
                  (probed s)) as [t2 r2] eqn:E.
      intros Hin. apply (Hd (join (js " ") (a :: r)) (probed s) [FetchTags]);
        auto. rewrite E. exact Hin.
    + cbn. intuition discriminate.
Qed.

Lemma main_generate (w : World) (mo : option json) (p : jsstring) :
  In (FetchGenerate mo p) (output (main w)) ->
  earlyFlag (argv w) = None
  /\ exists t1 remaining s1,
       resolveModel w (initial w) = (t1, Done remaining s1)
       /\ In (FetchGenerate mo p) (fst (session w remaining s1)).
Proof.
  intros Hin.
  assert (Hrun : In (FetchGenerate mo p) (fst (run w (initial w)))).
  { unfold main in Hin.
    assert (Hc : ~ In (FetchGenerate mo p) (construct w)).
    { unfold construct. destruct (debugging w); cbn; intuition discriminate. }
    destruct (run w (initial w)) as [t [u s|msg s|c s|s]];
      cbn [output fst] in *; apply in_app_or in Hin;
      destruct Hin as [Hin|Hin]; try contradiction; auto.
    apply in_app_or in Hin. destruct Hin as [Hin|[Hin|[]]];
      [assumption|discriminate]. }
  unfold run in Hrun. destruct (earlyFlag (argv w)) as [[| |]|].
  - exfalso. revert Hrun. apply notGenerate_In.
    unfold showHelp. apply emits_logAll. reflexivity.
  - exfalso. cbn in Hrun. intuition discriminate.
  - exfalso. revert Hrun. apply notGenerate_In, setup_notGenerate.
  - split; [reflexivity|]. unfold bind in Hrun.
    pose proof (resolveModel_notGenerate w (initial w)) as Hr.
    destruct (resolveModel w (initial w))
      as [t1 [remaining s1|msg s1|c s1|s1]]; cbn [fst] in *;
      try (exfalso; revert Hrun; now apply notGenerate_In).
    exists t1, remaining, s1. split; [reflexivity|].
    destruct (session w remaining s1) as [t2 r2]. cbn [fst] in *.
    apply in_app_or in Hrun. destruct Hrun as [Hrun|Hrun]; [|exact Hrun].
    exfalso. revert Hrun. now apply notGenerate_In.
Qed.

Lemma bind_result {A B} (m : M A) (f : A -> M B) (s s' : State)
  (t : list event) (b : B) :
  bind m f s = (t, Done b s') ->
  exists t1 a s1 t2,
    m s = (t1, Done a s1) /\ f a s1 = (t2, Done b s') /\ t = t1 ++ t2.
Proof.
  unfold bind. destruct (m s) as [t1 [a s1|msg s1|c s1|s1]]; try discriminate.
  destruct (f a s1) as [t2 r2] eqn:Ef. intros H. injection H as <- ->.
  now exists t1, a, s1, t2.
Qed.

Lemma resolveModel_remaining (w : World) (s s1 : State) (t : list event)
  (remaining : list jsstring) :
  resolveModel w s = (t, Done remaining s1) ->
  remaining = snd (parseOverride (argv w)).
Proof.
  unfold resolveModel. destruct (parseOverride (argv w)) as [o rem].
  intros H.
  apply bind_result in H. destruct H as (? & ? & ? & ? & _ & H & _).
  apply bind_result in H. destruct H as (? & ? & ? & ? & _ & H & _).
  apply bind_result in H. destruct H as (? & ? & ? & ? & _ & H & _).
  apply bind_result in H. destruct H as (? & ? & ? & ? & _ & H & _).
  injection H as _ <- _. reflexivity.
Qed.

(** X14: every request to the generation endpoint carries the prompt
    built from an instruction that is not blank; when arguments remain
    after the override is taken out, the instruction is those arguments
    joined by single spaces. *)
Theorem requests_carry_instruction (w : World) (mo : option json)
  (p : jsstring) :
  In (FetchGenerate mo p) (output (main w)) ->
  exists u,
    p = buildPrompt (platform w) u
    /\ trim u <> []
    /\ (snd (parseOverride (argv w)) <> [] ->
        u = join (js " ") (snd (parseOverride (argv w)))).
Proof.
  intros Hin. apply main_generate in Hin.
  destruct Hin as (_ & t1 & remaining & s1 & Hres & Hin).
  apply resolveModel_remaining in Hres. subst remaining.
  apply session_generate in Hin. destruct Hin as (_ & u & -> & Hu & Hrem).
  exists u. split; [reflexivity|]. split; [|exact Hrem].
  intros E. rewrite E in Hu. discriminate.
Qed.

Lemma requests_carry_instruction_witness :
  let w := servedWorld [js "-m"; js "mistral:7b"; js "list"; js "files"]
             None [] (js "ls") [[]] in
  exists u,
    buildPrompt OtherPlatform (js "list files") = buildPrompt (platform w) u
    /\ trim u <> []
    /\ (snd (parseOverride (argv w)) <> [] ->
        u = join (js " ") (snd (parseOverride (argv w)))).
Proof.
  intros w.
  apply (@requests_carry_instruction w (Some (JStr (js "mistral:7b")))
           (buildPrompt OtherPlatform (js "list files"))).
  vm_compute. do 3 right. left. reflexivity.
Defined.

Lemma eqb_refl (a : jsstring) : JS.eqb a a = true.
Proof. now apply eqb_true. Qed.

(** An object read at a key just set gives the value set. *)
Lemma getField_setField (k : jsstring) (v : json)
  (fs : list (jsstring * json)) :
  getField k (setField k v fs) = Some v.
Proof.
  induction fs as [|[k' v'] fs IH]; cbn [setField getField].
  - now rewrite eqb_refl.
  - destruct (JS.eqb k k') eqn:E; cbn [getField].
    + now rewrite eqb_refl.
    + now rewrite E.
Qed.

Lemma resolve_override_model (w : World) (m : jsstring)
  (remaining : list jsstring) (s s1 : State) (t : list event)
  (rem' : list jsstring) :
  parseOverride (argv w) = (Some m, remaining) ->
  resolveModel w s = (t, Done rem' s1) ->
  readModel (config s1) = Some (Some (JStr m)).
Proof.
  intros Hover. unfold resolveModel. rewrite Hover.
  unfold bind, loadConfig, getConfig, overrideModel, ret.
  cbn. rewrite andb_false_r. cbn. intros H. injection H as _ _ <-.
  cbn [config withConfig readModel]. now rewrite getField_setField.
Qed.

(** X15: with a model override, every request to the generation endpoint
    names the override as its model, whatever the preference file holds:
    another model, no [model] property, or text that is not JSON. *)
Theorem override_model_is_sent (w : World) (m : jsstring)
  (remaining : list jsstring) (mo : option json) (p : jsstring) :
  parseOverride (argv w) = (Some m, remaining) ->
  In (FetchGenerate mo p) (output (main w)) ->
  mo = Some (JStr m).
Proof.
  intros Hover Hin. apply main_generate in Hin.
  destruct Hin as (_ & t1 & rem' & s1 & Hres & Hin).
  pose proof (@resolve_override_model w m remaining (initial w) s1 t1 rem'
                Hover Hres) as Hm.
  apply session_generate in Hin. destruct Hin as (Hm' & _).
  congruence.
Qed.

Lemma override_model_is_sent_witness :
  let w := servedWorld [js "-m"; js "mistral:7b"; js "list"; js "files"]
             (Some (stringify2 (preference (js "llama3")))) []
             (js "ls") [[]] in
  match nth_error (output (main w)) 3 with
  | Some (FetchGenerate mo _) => mo
  | _ => None
  end = Some (JStr (js "mistral:7b")).
Proof.
  intros w.
  apply (@override_model_is_sent w (js "mistral:7b") [js "list"; js "files"]
           _ (buildPrompt OtherPlatform (js "list files"))).
  - reflexivity.
  - vm_compute. do 3 right. left. reflexivity.
Defined.

Lemma resolve_saved (w : World) (nm : jsstring) (s : State) :
  fst (parseOverride (argv w)) = None ->
  file s = Some (stringify2 (preference nm)) ->
  resolveModel w s
  = ([ReadFile],
     Done (snd (parseOverride (argv w))) (withConfig (preference nm) s)).
Proof.
  intros Hover Hfile. unfold resolveModel.
  destruct (parseOverride (argv w)) as [o rem]. cbn in Hover. subst o.
  unfold bind, loadConfig, getConfig, ret.
  rewrite Hfile, parse_stringify_preference. reflexivity.
Qed.

(** X16: when the preference file holds what the setup wrote for a model
    and there is no override, the run does no setup, leaves the file as it
    is, and every request to the generation endpoint names the saved
    model. *)
Theorem saved_model_is_sent (w : World) (nm : jsstring) :
  earlyFlag (argv w) = None ->
  fst (parseOverride (argv w)) = None ->
  configFile w = Some (stringify2 (preference nm)) ->
  forallb notSetup (output (main w)) = true
  /\ finalFile (main w) = configFile w
  /\ forall mo p,
       In (FetchGenerate mo p) (output (main w)) -> mo = Some (JStr nm).
Proof.
  intros Hflag Hover Hfile.
  pose proof (@resolve_saved w nm (initial w) Hover Hfile) as Hres.
  set (remaining := snd (parseOverride (argv w))) in *.
  set (s1 := withConfig (preference nm) (initial w)) in *.
  assert (Hc : forallb notSetup (construct w) = true).
  { unfold construct. destruct (debugging w); reflexivity. }
  split; [|split].
  - pose proof (session_notSetup w remaining s1) as Hev.
    unfold main, run. rewrite Hflag. unfold bind. rewrite Hres.
    destruct (session w remaining s1) as [t2 [a s2|msg s2|c s2|s2]];
      cbn [output fst] in *; rewrite ?forallb_app, Hc; cbn;
      rewrite ?forallb_app, Hev; reflexivity.
  - pose proof (session_keepsFile w remaining s1) as Hk.
    unfold main, run. rewrite Hflag. unfold bind. rewrite Hres.
    destruct (session w remaining s1) as [t2 [a s2|msg s2|c s2|s2]];
      cbn [finalFile snd stateOf] in *; rewrite Hk; reflexivity.
  - intros mo p Hin. apply main_generate in Hin.
    destruct Hin as (_ & t1 & rem' & s1' & Hres' & Hin).
    rewrite Hres in Hres'. injection Hres' as <- <- <-.
    apply session_generate in Hin. destruct Hin as (Hm & _).
    cbn in Hm. congruence.
Qed.

Lemma saved_model_is_sent_witness :
  let w := servedWorld [js "list"; js "files"]
             (Some (stringify2 (preference (js "llama3")))) []
             (js "ls") [[]] in
  forallb notSetup (output (main w)) = true
  /\ finalFile (main w) = configFile w
  /\ forall mo p,
       In (FetchGenerate mo p) (output (main w)) ->
       mo = Some (JStr (js "llama3")).
Proof.
  intros w. apply (@saved_model_is_sent w (js "llama3")); reflexivity.
Defined.

(** ** The first run *)

Lemma resolve_first_run (w : World) (s : State) :
  fst (parseOverride (argv w)) = None ->
  (file s = None \/ exists text, file s = Some text /\ parse text = None) ->
  resolveModel w s
  = match snd (setup w (withConfig JNull s)) with
    | Done _ s1 =>
        ([ReadFile; Log (Fixed 242)] ++ fst (setup w (withConfig JNull s))
           ++ [Log (Fixed 244)],
         Done (snd (parseOverride (argv w))) s1)
    | Throw msg s1 =>
        ([ReadFile; Log (Fixed 242)] ++ fst (setup w (withConfig JNull s)),
         Throw msg s1)
    | Exit c s1 =>
        ([ReadFile; Log (Fixed 242)] ++ fst (setup w (withConfig JNull s)),
         Exit c s1)
    | Wait s1 =>
        ([ReadFile; Log (Fixed 242)] ++ fst (setup w (withConfig JNull s)),
         Wait s1)
    end.
Proof.
  intros Hover Hfile. unfold resolveModel.
  destruct (parseOverride (argv w)) as [o rem]. cbn in Hover. subst o.
  assert (El : loadConfig s = ([ReadFile], Done tt (withConfig JNull s))).
  { unfold loadConfig. destruct Hfile as [->|(text & -> & ->)]; reflexivity. }
  erewrite bind_Done by exact El.
  erewrite bind_Done by reflexivity.
  cbn [config withConfig Json.truthy negb andb when fst snd app].
  set (s0 := withConfig JNull s).
  destruct (setup w s0) as [t [a s1|msg s1|c s1|s1]] eqn:Es; cbn [fst snd].
  - assert (E1 : (log (Fixed 242) ;; setup w ;; log (Fixed 244)) s0
                 = (Log (Fixed 242) :: t ++ [Log (Fixed 244)], Done tt s1)).
    { erewrite bind_Done by reflexivity. erewrite bind_Done by exact Es.
      reflexivity. }
    erewrite bind_Done by exact E1. cbn [fst snd ret bind app].
    now rewrite app_nil_r.
  - assert (E1 : (log (Fixed 242) ;; setup w ;; log (Fixed 244)) s0
                 = (Log (Fixed 242) :: t, Throw msg s1)).
    { erewrite bind_Done by reflexivity. erewrite bind_Throw by exact Es.
      reflexivity. }
    erewrite bind_Throw by exact E1. reflexivity.
  - assert (E1 : (log (Fixed 242) ;; setup w ;; log (Fixed 244)) s0
                 = (Log (Fixed 242) :: t, Exit c s1)).
    { erewrite bind_Done by reflexivity. erewrite bind_Exit by exact Es.
      reflexivity. }
    erewrite bind_Exit by exact E1. reflexivity.
  - assert (E1 : (log (Fixed 242) ;; setup w ;; log (Fixed 244)) s0
                 = (Log (Fixed 242) :: t, Wait s1)).
    { erewrite bind_Done by reflexivity. erewrite bind_Wait by exact Es.
      reflexivity. }
    erewrite bind_Wait by exact E1. reflexivity.
Qed.

Lemma session_starts (w : World) (remaining : list jsstring) (s : State) :
  exists tl, fst (session w remaining s) = FetchTags :: tl.
Proof.
  unfold session. pose proof (gate_run w s) as Hg.
  destruct (reachable w (probes s)).
  - erewrite bind_Done by exact Hg. eexists. reflexivity.
  - erewrite bind_Exit by exact Hg. eexists. reflexivity.
Qed.

(** X17: when the preference file is missing or is not JSON, and there is
    no override, the run starts with the first-time setup; if the setup
    completes the run goes on with a new availability check, and if it does
    not the run ends as the setup ended. *)
Theorem missing_file_starts_setup (w : World) :
  earlyFlag (argv w) = None ->
  fst (parseOverride (argv w)) = None ->
  (configFile w = None
   \/ exists text, configFile w = Some text /\ parse text = None) ->
  exists rest,
    output (main w)
    = construct w ++ [ReadFile; Log (Fixed 242)]
        ++ fst (setup w (initial w)) ++ rest
    /\ match snd (setup w (initial w)) with
       | Done _ _ => exists rest', rest = Log (Fixed 244) :: FetchTags :: rest'
       | Throw msg _ =>
           rest = [Log (ErrorLine msg)] /\ exitCode (main w) = Some 1%Z
       | Exit c _ => rest = [] /\ exitCode (main w) = Some c
       | Wait _ => rest = [] /\ exitCode (main w) = None
       end.
Proof.
  intros Hflag Hover Hfile.
  pose proof (@resolve_first_run w (initial w) Hover Hfile) as Hres.
  change (withConfig JNull (initial w)) with (initial w) in Hres.
  set (remaining := snd (parseOverride (argv w))) in *.
  assert (Hrun : run w (initial w)
                 = bind (resolveModel w) (session w) (initial w)).
  { unfold run. now rewrite Hflag. }
  unfold main. rewrite Hrun. clear Hrun.
  destruct (setup w (initial w)) as [t [a s1|msg s1|c s1|s1]];
    cbn [fst snd] in *.
  - erewrite bind_Done by exact Hres.
    destruct (session_starts w remaining s1) as (tl & Etl).
    destruct (session w remaining s1) as [ts rs]. cbn [fst snd] in *.
    subst ts.
    destruct rs as [u s2|msg s2|c s2|s2]; cbn [output].
    + exists ([Log (Fixed 244)] ++ FetchTags :: tl).
      split; [|eexists; reflexivity].
      cbn [app]. now rewrite <- !app_assoc.
    + exists ([Log (Fixed 244)] ++ FetchTags :: tl ++ [Log (ErrorLine msg)]).
      split; [|eexists; reflexivity].
      cbn [app]. now rewrite <- !app_assoc.
    + exists ([Log (Fixed 244)] ++ FetchTags :: tl).
      split; [|eexists; reflexivity].
      cbn [app]. now rewrite <- !app_assoc.
    + exists ([Log (Fixed 244)] ++ FetchTags :: tl).
      split; [|eexists; reflexivity].
      cbn [app]. now rewrite <- !app_assoc.
  - erewrite bind_Throw by exact Hres.
    exists [Log (ErrorLine msg)]. cbn [output exitCode app].
    rewrite <- ?app_assoc. repeat split.
  - erewrite bind_Exit by exact Hres.
    exists []. cbn [output exitCode app]. rewrite app_nil_r. repeat split.
  - erewrite bind_Wait by exact Hres.
    exists []. cbn [output exitCode app]. rewrite app_nil_r. repeat split.
Qed.

Lemma missing_file_starts_setup_witness :
  let w := servedWorld [js "list"; js "files"] (Some (js "{model: llama3}"))
             [] (js "ls") [] in
  exists rest,
    output (main w)
    = construct w ++ [ReadFile; Log (Fixed 242)]
        ++ fst (setup w (initial w)) ++ rest
    /\ (rest = [] /\ exitCode (main w) = Some 1%Z).
Proof.
  intros w.
  apply (@missing_file_starts_setup w).
  - reflexivity.
  - reflexivity.
  - right. exists (js "{model: llama3}"). split; reflexivity.
Defined.

(** ** Failures inside the [try] *)

(** X18: when the generation request does not bring back a response text
    (the request fails, or its status is not a success), the run prints one
    error line that carries the cause after the words of line 179, and
    exits with code 1; nothing is shown for confirmation, no question is
    asked and nothing is executed. *)
Theorem generation_failure_reported (w : World) (u : jsstring) (s : State)
  (model : option json) :
  readModel (config s) = Some model ->
  (forall response,
      generation w model (buildPrompt (platform w) u) <> GenAnswer response) ->
  exists cause,
    deliver w u s
    = ([FetchGenerate model (buildPrompt (platform w) u);
        Log (ErrorLine (js "Failed to generate command: " ++ cause))],
       Exit 1 s)
    /\ (generation w model (buildPrompt (platform w) u) = GenRejected cause
        \/ exists statusText,
             generation w model (buildPrompt (platform w) u)
             = GenStatus statusText
             /\ cause = js "Ollama API error: " ++ statusText).
Proof.
  intros Hm Hgen. unfold deliver. rewrite tryCatch_run.
  pose proof (generateCommand_run w u s) as Eg. rewrite Hm in Eg.
  destruct (generation w model (buildPrompt (platform w) u))
    as [msg|st|response].
  - exists msg. erewrite bind_Throw by exact Eg. split; [reflexivity|].
    now left.
  - exists (js "Ollama API error: " ++ st).
    erewrite bind_Throw by exact Eg. split; [reflexivity|].
    right. now exists st.
  - now specialize (Hgen response).
Qed.

Lemma generation_failure_reported_witness :
  let w := {| argv := [js "files"]; envDEBUG := None;
              platform := OtherPlatform; configFile := None;
              diskError := None;
              tags := fun _ => TagsAnswer true None;
              generation := fun _ _ => GenStatus (js "Not Found");
              operator := [[]]; child := fun _ => ChildExit 0 |} in
  let s := withConfig (preference (js "llama3")) (initial w) in
  exists cause,
    deliver w (js "files") s
    = ([FetchGenerate (Some (JStr (js "llama3")))
          (buildPrompt (platform w) (js "files"));
        Log (ErrorLine (js "Failed to generate command: " ++ cause))],
       Exit 1 s)
    /\ (generation w (Some (JStr (js "llama3")))
          (buildPrompt (platform w) (js "files")) = GenRejected cause
        \/ exists statusText,
             generation w (Some (JStr (js "llama3")))
               (buildPrompt (platform w) (js "files"))
             = GenStatus statusText
             /\ cause = js "Ollama API error: " ++ statusText).
Proof.
  intros w s.
  apply (@generation_failure_reported w (js "files") s
           (Some (JStr (js "llama3")))).
  - reflexivity.
  - intros response. discriminate.
Defined.

(** X19: once the operator has confirmed with the empty line, the outcome
    of the child decides: exit code 0 lets the run return normally with no
    error line; any other exit code, a signal or a spawn error gives one
    error line after the spawn and exit code 1, the line naming the code
    when the child exited with one. *)
Theorem child_outcome_decides (w : World) (command : jsstring)
  (rest : list jsstring) (s : State) :
  stdin s = [] :: rest ->
  let shown := [Log (Suggested command); Log (Fixed 284); Question Confirm;
                Log (Running command); Spawn command] in
  (child w command = ChildExit 0 ->
   tryCatch (confirmStep w command) reportAndExit s
   = (shown, Done tt (withStdin rest s)))
  /\ (child w command <> ChildExit 0 ->
      exists msg,
        tryCatch (confirmStep w command) reportAndExit s
        = (shown ++ [Log (ErrorLine msg)], Exit 1 (withStdin rest s))
        /\ forall code,
             child w command = ChildExit code ->
             msg = js "Command exited with code " ++ decimal code).
Proof.
  intros Hin shown. rewrite tryCatch_run.
  assert (E : confirmStep w command s
              = (shown, snd (executeCommand w command (withStdin rest s)))).
  { unfold confirmStep, bind, log, emit, prompt, executeCommand.
    rewrite Hin. cbn.
    destruct (child w command) as [code| |msg]; [destruct (N.eqb code 0)| |];
      reflexivity. }
  rewrite E. unfold executeCommand. cbn [fst snd]. split.
  - intros ->. reflexivity.
  - intros Hne. destruct (child w command) as [code| |msg].
    + destruct (N.eqb_spec code 0) as [->|Hc]; [contradiction|].
      exists (js "Command exited with code " ++ decimal code).
      split; [reflexivity|]. intros c Hcode. now injection Hcode as <-.
    + exists (js "Command exited with code null").
      split; [reflexivity|]. discriminate.
    + exists msg. split; [reflexivity|]. discriminate.
Qed.

Lemma child_outcome_decides_witness :
  let w := {| argv := []; envDEBUG := None; platform := OtherPlatform;
              configFile := None; diskError := None;
              tags := fun _ => TagsAnswer true None;
              generation := fun _ _ => GenAnswer (js "false");
              operator := [[]]; child := fun _ => ChildExit 2 |} in
  exists msg,
    tryCatch (confirmStep w (js "false")) reportAndExit (initial w)
    = ([Log (Suggested (js "false")); Log (Fixed 284); Question Confirm;
        Log (Running (js "false")); Spawn (js "false")]
         ++ [Log (ErrorLine msg)],
       Exit 1 (withStdin [] (initial w)))
    /\ forall code,
         child w (js "false") = ChildExit code ->
         msg = js "Command exited with code " ++ decimal code.
Proof.
  intros w.
  apply (@child_outcome_decides w (js "false") [] (initial w)).
  - reflexivity.
  - discriminate.
Defined.

(** ** The prompt *)

(** X20: the prompt is a head that depends on the platform only, then the
    task line with the instruction as it was given, unchanged and whole,
    then the line that asks for the response; so two instructions that
    differ give prompts that differ. *)
Theorem prompt_embeds_instruction (p : Platform) :
  (forall u,
      buildPrompt p u
      = promptHead p ++ newline ++ js "Instruction: " ++ u ++ newline
          ++ js "Response:")
  /\ (forall u1 u2, buildPrompt p u1 = buildPrompt p u2 -> u1 = u2).
Proof.
  assert (H : forall u,
             buildPrompt p u
             = promptHead p ++ newline ++ js "Instruction: " ++ u ++ newline
                 ++ js "Response:").
  { intros u. unfold buildPrompt, promptHead. cbn [join].
    rewrite <- !app_assoc. reflexivity. }
  split; [exact H|].
  intros u1 u2 E. rewrite !H in E.
  apply app_inv_head in E. apply app_inv_head in E.
  apply app_inv_head in E. now apply app_inv_tail in E.
Qed.
